(** * Raw EMG acquisition: a shallow embedding of the Python sources

    The development follows the layout of the repository:
    - [emg_sensor/emg_parser.py]  -> [Module EmgParser]
    - [emg_sensor/emg_sock.py]    -> [Module EmgSock]
    - [emg_sensor/data_reader.py] -> [Module DataReader]
    - [emg_reader.py]             -> [Module EmgReader]

    Python integers are [Z], byte strings are [list byte], Python floats are
    the kernel's binary64 numbers, exceptions are an explicit error type. *)

From Stdlib Require Import ZArith List Lia Bool Floats Uint63.
From Stdlib Require Import Strings.String Strings.Byte.
Import ListNotations.

Local Open Scope Z_scope.

(** ** Python runtime: exceptions, floats, byte strings *)

Module Py.

(** The exception classes the sources raise, each with its message. *)
Inductive exn : Type :=
| ValueError (msg : string)
| OverflowError (msg : string)
| StructError (msg : string)
| KeyError (key : Z)
| NotImplementedError (msg : string)
| AttributeError (msg : string)
| TypeError (msg : string)
| IndexError (msg : string)
| ZeroDivisionError (msg : string)
| Exception (msg : string).

Inductive result (A : Type) : Type :=
| Ok (a : A)
| Raise (e : exn).
Arguments Ok {A} a.
Arguments Raise {A} e.

Definition bind {A B} (r : result A) (k : A -> result B) : result B :=
  match r with
  | Ok a => k a
  | Raise e => Raise e
  end.

Definition is_ok {A} (r : result A) : bool :=
  match r with Ok _ => true | Raise _ => false end.

(** [int -> float] conversion as performed by [int * float]; exact on the
    range used here (below 2^53 in magnitude). *)
Definition float_of_int (z : Z) : float :=
  if z <? 0 then PrimFloat.opp (PrimFloat.of_uint63 (Uint63.of_Z (- z)))
  else PrimFloat.of_uint63 (Uint63.of_Z z).

(** [int(x)] on a float: truncation toward zero; [None] on inf and nan,
    where Python raises. *)
Definition int_of_float (x : float) : option Z :=
  match Prim2SF x with
  | S754_zero _ => Some 0
  | S754_finite s m e =>
      let mag := if 0 <=? e then Z.shiftl (Zpos m) e
                 else Z.shiftr (Zpos m) (- e) in
      Some (if s then - mag else mag)
  | _ => None
  end.

Definition byte_to_Z (b : byte) : Z := Z.of_N (Byte.to_N b).

Definition byte_of_Z (z : Z) : byte :=
  match Byte.of_N (Z.to_N (z mod 256)) with
  | Some b => b
  | None => x00
  end.

(** [int.from_bytes(bs, byteorder="little", signed=False)] *)
Fixpoint int_from_bytes_le (bs : list byte) : Z :=
  match bs with
  | [] => 0
  | b :: rest => byte_to_Z b + 256 * int_from_bytes_le rest
  end.

Fixpoint le_digits (n : nat) (v : Z) : list byte :=
  match n with
  | O => []
  | S n' => byte_of_Z v :: le_digits n' (v / 256)
  end.

(** [v.to_bytes(n, "little")] for the default [signed=False]. *)
Definition int_to_bytes_le (n : nat) (v : Z) : result (list byte) :=
  if v <? 0 then Raise (OverflowError "can't convert negative int to unsigned")
  else if 256 ^ Z.of_nat n <=? v then Raise (OverflowError "int too big to convert")
  else Ok (le_digits n v).

(** [struct.unpack("<i", bs)[0]] *)
Definition struct_unpack_i32_le (bs : list byte) : result Z :=
  if Nat.eqb (List.length bs) 4 then
    let u := int_from_bytes_le bs in
    Ok (if u <? 2 ^ 31 then u else u - 2 ^ 32)
  else Raise (StructError "unpack requires a buffer of 4 bytes").

(** [bs[lo:hi]] for [0 <= lo <= hi]. *)
Definition slice {A} (lo hi : nat) (l : list A) : list A :=
  firstn (hi - lo) (skipn lo l).

End Py.

Import Py.

Declare Scope py_scope.
Delimit Scope py_scope with py.
Notation "x <- c ;; k" := (Py.bind c (fun x => k))
  (at level 61, c at next level, right associativity) : py_scope.
Local Open Scope py_scope.

(** ** emg_sensor/emg_parser.py *)

Module EmgParser.

(** The conversion factor [0.0240405], as the binary64 number Python reads
    the literal as. *)
Definition SCALE : float := 0x1.89e12a51e321ap-6%float.

Record packet_dict : Type := {
  emg : list float;
  imu : list byte
}.

(** Body of the [for i in range(5)] loop up to the value appended. *)
Definition decode_channel (emg_bytes : list byte) (i : nat) : result float :=
  let start := (i * 3)%nat in
  let val := int_from_bytes_le (slice start (start + 3) emg_bytes) in
  val' <- (if negb (Z.land val 0x00800000 =? 0) then
             let val := Z.lor val 0xFF000000 in
             bs <- int_to_bytes_le 4 val ;;
             struct_unpack_i32_le bs
           else Ok val) ;;
  Ok (PrimFloat.mul (float_of_int val') SCALE).

Fixpoint decode_channels (emg_bytes : list byte) (idx : list nat)
                         (emg_values : list float) : result (list float) :=
  match idx with
  | [] => Ok emg_values
  | i :: idx' =>
      v <- decode_channel emg_bytes i ;;
      decode_channels emg_bytes idx' (emg_values ++ [v])
  end.

Definition parse_packet (packet : list byte) : result packet_dict :=
  if (List.length packet <? 15)%nat then
    Raise (ValueError "Incomplete packet: less than 15 bytes")
  else
    let emg_bytes := firstn 15 packet in
    emg_values <- decode_channels emg_bytes (seq 0 5) [] ;;
    let imu_data := skipn 15 packet in
    Ok {| emg := emg_values; imu := imu_data |}.

(** Two's-complement reading of a 24-bit field. *)
Definition twos_complement24 (u : Z) : Z :=
  if u <? 2 ^ 23 then u else u - 2 ^ 24.

(** The three bytes of channel [i], in wire order. *)
Definition channel_field (packet : list byte) (i : nat) : list byte :=
  slice (3 * i) (3 * i + 3) packet.

End EmgParser.

(** ** emg_sensor/emg_sock.py *)

Module EmgSock.

(** The serial port as the sources use it: what has been written, what is
    waiting to be read, and the instrument at the other end, which answers
    a write with the bytes that arrive within the settle delay.  A link
    that is [broken] makes every transfer raise. *)
Record Serial : Type := {
  port_name : string;
  out_log : list byte;
  in_buf : list byte;
  reply : list byte -> list byte;
  broken : bool;
  closed : bool
}.

Definition SerialException : exn := Exception "SerialException".

Definition serial_write (bs : list byte) (d : Serial) : result Serial :=
  if broken d || closed d then Raise SerialException
  else Ok {| port_name := port_name d;
             out_log := out_log d ++ bs;
             in_buf := in_buf d ++ reply d bs;
             reply := reply d;
             broken := broken d;
             closed := closed d |}.

Definition set_in_buf (buf : list byte) (d : Serial) : Serial :=
  {| port_name := port_name d; out_log := out_log d; in_buf := buf;
     reply := reply d; broken := broken d; closed := closed d |}.

Definition serial_read_all (d : Serial) : result (list byte * Serial) :=
  if broken d || closed d then Raise SerialException
  else Ok (in_buf d, set_in_buf [] d).

(** [read(size)]: at most [size] bytes, fewer when the timeout expires. *)
Definition serial_read (size : nat) (d : Serial) : result (list byte * Serial) :=
  if broken d || closed d then Raise SerialException
  else Ok (firstn size (in_buf d), set_in_buf (skipn size (in_buf d)) d).

Definition serial_flush (d : Serial) : result Serial :=
  if broken d || closed d then Raise SerialException else Ok d.

Definition serial_in_waiting (d : Serial) : result nat :=
  if broken d || closed d then Raise SerialException
  else Ok (List.length (in_buf d)).

Definition serial_close (d : Serial) : Serial :=
  {| port_name := port_name d; out_log := out_log d; in_buf := [];
     reply := reply d; broken := broken d; closed := true |}.

(** The class attribute [sock.fs]. *)
Definition fs : list (Z * list byte) := [(250, [x04]); (500, [x05])].

Fixpoint dict_get {V} (d : list (Z * V)) (k : Z) : result V :=
  match d with
  | [] => Raise (KeyError k)
  | (k', v) :: d' => if k' =? k then Ok v else dict_get d' k
  end.

(** What [read_all] gives back after [cmd] has been written, which the
    code takes for the acknowledgment: every byte waiting on the port at
    that moment, the instrument's answer to [cmd] and, before it, whatever
    had arrived earlier and was not read. *)
Definition acknowledgment (cmd : list byte) (d : Serial) : result (list byte) :=
  d <- serial_flush d ;;
  d <- serial_write cmd d ;;
  r <- serial_read_all d ;;
  Ok (fst r).

(** The exception of [set_frequency]. *)
Definition UNSUPPORTED : exn :=
  NotImplementedError
    "Invalid sample frequency, please update the device firmware or fall back to 250Hz.".

Definition set_frequency (rate : Z) (d : Serial) : result Serial :=
  d <- serial_flush d ;;
  cmd <- dict_get fs rate ;;
  d <- serial_write cmd d ;;
  r <- serial_read_all d ;;
  let (res, d) := (r : list byte * Serial) in
  if (rate =? 500) && Nat.eqb (List.length res) 0 then Raise UNSUPPORTED
  else Ok d.

Definition start_data (d : Serial) : result Serial :=
  r <- serial_read_all d ;;
  serial_write [x01] (snd r).

Definition stop_recv (d : Serial) : result Serial :=
  serial_write [x02] d.

Definition recv_socket (buffer_size : nat) (d : Serial)
  : result (list byte * Serial) :=
  serial_read buffer_size d.

(** The two-second poll sees what the instrument sent in answer to the
    start command. *)
Definition connect_socket (d : Serial) : result Serial :=
  d <- start_data d ;;
  n <- serial_in_waiting d ;;
  if Nat.ltb 0 n then stop_recv d
  else Raise (Exception "connection failed, no data available.").

(** The write of the final control byte is inside [try/except: pass]. *)
Definition close_socket (d : Serial) : Serial :=
  let d := match serial_write [x02] d with Ok d' => d' | Raise _ => d end in
  serial_close d.

(** One entry of [serial.tools.list_ports.comports()], with the port that
    opening it gives ([None]: [Serial(...)] raises [SerialException]). *)
Record port_info : Type := {
  device : string;
  manufacturer : option string;
  hardware : option Serial
}.

Fixpoint is_prefix (p s : string) : bool :=
  match p, s with
  | EmptyString, _ => true
  | String a p', String b s' => Ascii.eqb a b && is_prefix p' s'
  | String _ _, EmptyString => false
  end.

(** [p in s] on strings *)
Fixpoint contains (p s : string) : bool :=
  is_prefix p s ||
  match s with
  | EmptyString => false
  | String _ s' => contains p s'
  end.

Fixpoint probe (devices : list port_info) (ret : list string) : list string :=
  match devices with
  | [] => ret
  | dv :: rest =>
      match manufacturer dv with
      | Some m =>
          if contains "FTDI" m then
            match hardware dv with
            | Some _ => probe rest (ret ++ [device dv])
            | None => probe rest ret
            end
          else probe rest ret
      | None => probe rest ret
      end
  end.

Definition _find_devs (comports : list port_info) : result (list string) :=
  let ret := probe comports [] in
  if Nat.eqb (List.length ret) 0 then Raise (Exception "EMG device not found")
  else Ok ret.

Fixpoint open_port (comports : list port_info) (port : string) : result Serial :=
  match comports with
  | [] => Raise SerialException
  | dv :: rest =>
      if String.eqb (device dv) port then
        match hardware dv with
        | Some d => Ok d
        | None => Raise SerialException
        end
      else open_port rest port
  end.

End EmgSock.

(** ** emg_sensor/data_reader.py *)

Module DataReader.
Import EmgSock.

Inductive Dev : Type :=
| SIGNAL | SIGNAL_START | IDLE | IDLE_START | TERMINATE | TERMINATE_START.

Definition Dev_value (s : Dev) : Z :=
  match s with
  | SIGNAL => 10 | SIGNAL_START => 11
  | IDLE => 30 | IDLE_START => 31
  | TERMINATE => 40 | TERMINATE_START => 41
  end.

Definition Dev_name (s : Dev) : string :=
  match s with
  | SIGNAL => "SIGNAL" | SIGNAL_START => "SIGNAL_START"
  | IDLE => "IDLE" | IDLE_START => "IDLE_START"
  | TERMINATE => "TERMINATE" | TERMINATE_START => "TERMINATE_START"
  end.

Definition Dev_eqb (a b : Dev) : bool := Dev_value a =? Dev_value b.

Record dev_args_t : Type := {
  type_ : string;
  fs_eeg : Z;
  fs_imu : Z;
  channel_eeg : list (Z * string);
  channel_imu : list (Z * string);
  AdapterInfo : string;
  name : option string
}.

(** The class attribute [iFocus.dev_args] as the module is loaded. *)
Definition dev_args : dev_args_t :=
  {| type_ := "iFocus";
     fs_eeg := 500;
     fs_imu := 100;
     channel_eeg := [(0, "CH0"); (1, "CH1"); (2, "CH2"); (3, "CH3"); (4, "CH4")]%string;
     channel_imu := [(0, "X"); (1, "Y"); (2, "Z")]%string;
     AdapterInfo := "Serial Port";
     name := None |}.

Definition set_rates (eeg imu : Z) (a : dev_args_t) : dev_args_t :=
  {| type_ := type_ a; fs_eeg := eeg; fs_imu := imu;
     channel_eeg := channel_eeg a; channel_imu := channel_imu a;
     AdapterInfo := AdapterInfo a; name := name a |}.

Definition set_name (p : string) (a : dev_args_t) : dev_args_t :=
  {| type_ := type_ a; fs_eeg := fs_eeg a; fs_imu := fs_imu a;
     channel_eeg := channel_eeg a; channel_imu := channel_imu a;
     AdapterInfo := AdapterInfo a; name := Some p |}.

(** A frame: five one-element EEG samples and one IMU triple. *)
Definition frame : Type := list (list float).

(** What [Queue.put] receives: a list of frames, or [None]. *)
Definition queue_item : Type := option (list frame).

(** Where the controller thread stands between two polls. *)
Inductive thread_pc : Type :=
| NotStarted   (* [Thread.start()] not called yet *)
| IdleWait     (* inside [while status == IDLE: sleep] of [run] *)
| RecvLoop     (* at the head of the [while] of [__recv_data] *)
| Finished.    (* [run] has returned *)

Record iFocus : Type := {
  status : Dev;
  save_data : list queue_item;
  parser_buffer : list byte;
  args : dev_args_t;
  dev : Serial;
  with_q : bool;
  socket_flag : option string;
  pc : thread_pc
}.

Definition is_alive (st : iFocus) : bool :=
  match pc st with
  | IdleWait | RecvLoop => true
  | NotStarted | Finished => false
  end.

Definition set_status (s : Dev) (st : iFocus) : iFocus :=
  {| status := s; save_data := save_data st; parser_buffer := parser_buffer st;
     args := args st; dev := dev st; with_q := with_q st;
     socket_flag := socket_flag st; pc := pc st |}.

Definition set_save_data (q : list queue_item) (st : iFocus) : iFocus :=
  {| status := status st; save_data := q; parser_buffer := parser_buffer st;
     args := args st; dev := dev st; with_q := with_q st;
     socket_flag := socket_flag st; pc := pc st |}.

Definition set_parser_buffer (b : list byte) (st : iFocus) : iFocus :=
  {| status := status st; save_data := save_data st; parser_buffer := b;
     args := args st; dev := dev st; with_q := with_q st;
     socket_flag := socket_flag st; pc := pc st |}.

Definition set_args (a : dev_args_t) (st : iFocus) : iFocus :=
  {| status := status st; save_data := save_data st;
     parser_buffer := parser_buffer st;
     args := a; dev := dev st; with_q := with_q st;
     socket_flag := socket_flag st; pc := pc st |}.

Definition set_dev (d : Serial) (st : iFocus) : iFocus :=
  {| status := status st; save_data := save_data st;
     parser_buffer := parser_buffer st;
     args := args st; dev := d; with_q := with_q st;
     socket_flag := socket_flag st; pc := pc st |}.

Definition set_with_q (b : bool) (st : iFocus) : iFocus :=
  {| status := status st; save_data := save_data st;
     parser_buffer := parser_buffer st;
     args := args st; dev := dev st; with_q := b;
     socket_flag := socket_flag st; pc := pc st |}.

Definition set_socket_flag (f : option string) (st : iFocus) : iFocus :=
  {| status := status st; save_data := save_data st;
     parser_buffer := parser_buffer st;
     args := args st; dev := dev st; with_q := with_q st;
     socket_flag := f; pc := pc st |}.

Definition set_pc (p : thread_pc) (st : iFocus) : iFocus :=
  {| status := status st; save_data := save_data st;
     parser_buffer := parser_buffer st;
     args := args st; dev := dev st; with_q := with_q st;
     socket_flag := socket_flag st; pc := p |}.

(** [str(e)] *)
Definition exn_str (e : exn) : string :=
  match e with
  | ValueError m | OverflowError m | StructError m
  | NotImplementedError m | AttributeError m | TypeError m
  | IndexError m | ZeroDivisionError m | Exception m => m
  | KeyError _ => "KeyError"
  end.

(** Modelled from the spec: [Parser.clear_buffer] of the absent
    [iFocusParser]; the parser's partial-byte buffer is cleared. *)
Definition clear_buffer (st : iFocus) : iFocus := set_parser_buffer [] st.

(** [Queue.put] *)
Definition queue_put (x : queue_item) (st : iFocus) : iFocus :=
  set_save_data (save_data st ++ [x]) st.

(** [while not q.empty(): q.get_nowait()] *)
Fixpoint drain (q : list queue_item) : list queue_item :=
  match q with
  | [] => []
  | _ :: q' => drain q'
  end.

(** What the surroundings of the controller thread may do between two of
    its polls. *)
Inductive event : Type :=
| Tick                       (* nothing *)
| Arrive (bs : list byte)    (* the instrument sends bytes *)
| LinkFails                  (* the serial link breaks *)
| StatusWrite (s : Dev)      (* another thread assigns the status *)
| Consume.                   (* the consumer empties the queue *)

Definition apply_event (ev : event) (st : iFocus) : iFocus :=
  match ev with
  | Tick => st
  | Arrive bs => set_dev (set_in_buf (in_buf (dev st) ++ bs) (dev st)) st
  | LinkFails =>
      let d := dev st in
      set_dev {| port_name := port_name d; out_log := out_log d;
                 in_buf := in_buf d; reply := reply d;
                 broken := true; closed := closed d |} st
  | StatusWrite s => set_status s st
  | Consume => set_save_data [] st
  end.

Section WithParser.

(** [Parser.parse_data] of the absent [iFocusParser]: from the buffered
    bytes and the bytes just read, the completed frames and the bytes
    kept for the next read, or an exception. *)
Variable parse_data : list byte -> list byte -> result (list frame * list byte).

(** The tail of [run]: [close_socket] and the final status. *)
Definition finish (st : iFocus) : iFocus :=
  set_pc Finished (set_status TERMINATE (set_dev (close_socket (dev st)) st)).

(** [__recv_data], after its [while] loop. *)
Definition recv_exit (st : iFocus) : iFocus :=
  let st := clear_buffer st in
  let st := queue_put None st in
  let st := set_save_data (drain (save_data st)) st in
  if negb (Dev_eqb (status st) TERMINATE_START) then
    match stop_recv (dev st) with
    | Ok d => set_dev d st
    | Raise _ =>
        let st := if Dev_eqb (status st) IDLE_START
                  then set_socket_flag (Some "Connection lost."%string) st
                  else st in
        set_status TERMINATE_START st
    end
  else st.

(** The [except] branch inside the loop of [__recv_data]. *)
Definition recv_fault (e : exn) (st : iFocus) : iFocus :=
  set_status TERMINATE_START
    (set_socket_flag (Some ("Data transmission error: " ++ exn_str e)%string) st).

(** One pass through the body of the [while] of [__recv_data]:
    the state, and whether the loop was left by [break]. *)
Definition recv_iter (st : iFocus) : iFocus * bool :=
  match recv_socket 100 (dev st) with
  | Raise e => (recv_fault e st, true)
  | Ok (data, d) =>
      let st := set_dev d st in
      match data with
      | [] => (st, false)
      | _ :: _ =>
          match parse_data (parser_buffer st) data with
          | Raise e => (recv_fault e st, true)
          | Ok (ret, buf) =>
              let st := set_parser_buffer buf st in
              match ret with
              | [] => (st, false)
              | _ :: _ =>
                  ((if with_q st then queue_put (Some ret) st else st), false)
              end
          end
      end
  end.

(** The head of the loop of [run], up to the next place where the
    thread waits. *)
Definition run_top (st : iFocus) : iFocus :=
  match status st with
  | TERMINATE_START => finish st
  | SIGNAL_START =>
      match start_data (dev st) with
      | Ok d => set_pc RecvLoop (set_status SIGNAL (set_dev d st))
      | Raise e =>
          finish (set_status TERMINATE_START
            (set_socket_flag
               (Some ("SIGNAL mode initialization failed: " ++ exn_str e)%string) st))
      end
  | IDLE_START => set_pc IdleWait (set_status IDLE st)
  | s => finish (set_socket_flag (Some ("Unknown status: " ++ Dev_name s)%string) st)
  end.

(** The controller thread, from one poll to the next. *)
Definition thread_advance (st : iFocus) : iFocus :=
  match pc st with
  | NotStarted | Finished => st
  | IdleWait => if Dev_eqb (status st) IDLE then st else run_top st
  | RecvLoop =>
      if Dev_eqb (status st) SIGNAL then
        let (st', broke) := recv_iter st in
        if broke then run_top (recv_exit st') else st'
      else run_top (recv_exit st)
  end.

Definition step (st : iFocus) (ev : event) : iFocus :=
  thread_advance (apply_event ev st).

Definition run (st : iFocus) (evs : list event) : iFocus :=
  fold_left step evs st.

(** The calls below are made from another thread and wait on the
    controller: [None] stands for a wait that never ends. *)
Definition blocking (A : Type) : Type := option (result A * iFocus).

(** [Thread.join()] *)
Definition join (st : iFocus) : option iFocus :=
  let st := thread_advance st in
  match pc st with
  | Finished => Some st
  | _ => None
  end.

Definition close_dev (st : iFocus) : blocking unit :=
  let waited :=
    if negb (Dev_eqb (status st) TERMINATE) then
      let st := thread_advance (set_status TERMINATE_START st) in
      if Dev_eqb (status st) TERMINATE then Some st else None
    else Some st in
  match waited with
  | None => None
  | Some st =>
      if is_alive st then
        match join st with
        | Some st => Some (Ok tt, st)
        | None => None
        end
      else Some (Ok tt, st)
  end.

Definition __check_dev_status (st : iFocus) : blocking unit :=
  match socket_flag st with
  | None => Some (Ok tt, st)
  | Some _ =>
      let closed :=
        if is_alive st then
          match close_dev st with
          | Some (_, st) => Some st
          | None => None
          end
        else Some st in
      match closed with
      | None => None
      | Some st =>
          Some (Raise (Exception
                  match socket_flag st with Some m => m | None => "None"%string end), st)
      end
  end.

(** Runs [k] when the status check passes. *)
Definition checked {A} (st : iFocus) (k : iFocus -> blocking A) : blocking A :=
  match __check_dev_status st with
  | None => None
  | Some (Raise e, st) => Some (Raise e, st)
  | Some (Ok _, st) => k st
  end.

Definition start_acquisition_data (wq : bool) (st : iFocus) : blocking unit :=
  checked st (fun st =>
    let st := set_with_q wq st in
    if Dev_eqb (status st) SIGNAL then Some (Ok tt, st)
    else
      let st := thread_advance (set_status SIGNAL_START st) in
      if Dev_eqb (status st) SIGNAL || Dev_eqb (status st) TERMINATE
      then __check_dev_status st
      else None).

Definition stop_acquisition (st : iFocus) : blocking unit :=
  checked st (fun st =>
    let st := thread_advance (set_status IDLE_START st) in
    if Dev_eqb (status st) IDLE || Dev_eqb (status st) TERMINATE
    then __check_dev_status st
    else None).

(** The [while not empty(): data.extend(get())] of [get_data]: the value
    of [data] or the exception, and what is left on the queue.  The
    attribute [data.extend] is looked up before [get()] is called, so on a
    [data] that is [None] nothing more is taken from the queue. *)
Fixpoint extend_all (data : queue_item) (q : list queue_item)
  : result queue_item * list queue_item :=
  match q with
  | [] => (Ok data, [])
  | x :: q' =>
      match data, x with
      | None, _ =>
          (Raise (AttributeError "'NoneType' object has no attribute 'extend'"), q)
      | Some _, None =>
          (Raise (TypeError "'NoneType' object is not iterable"), q')
      | Some d, Some fs => extend_all (Some (d ++ fs)) q'
      end
  end.

(** [get_data(timeout)] for a finite timeout: an empty queue gives
    [[]] once the timeout has passed. *)
Definition get_data (st : iFocus) : blocking queue_item :=
  checked st (fun st =>
    if negb (with_q st) then Some (Ok None, st)
    else
      match save_data st with
      | [] => Some (Ok (Some []), st)
      | data :: q =>
          let (r, q') := extend_all data q in
          Some (r, set_save_data q' st)
      end).

(** [iFocus.set_frequency] *)
Definition set_frequency (rate : option Z) (st : iFocus) : result iFocus :=
  if Dev_eqb (status st) SIGNAL then
    Raise (Exception "Data acquisition already started, please stop first.")
  else
    let rate := match rate with Some r => r | None => fs_eeg (args st) end in
    if negb ((rate =? 250) || (rate =? 500)) then
      Raise (ValueError "fs_eeg should be 250 or 500")
    else
      let st := set_args (set_rates rate (rate / 5) (args st)) st in
      d <- EmgSock.set_frequency rate (dev st) ;;
      Ok (set_dev d st).

(** [iFocus.__init__]: [comports] is what the operating system lists,
    [class_args] the class attribute [iFocus.dev_args] at the time of
    the call.  [Thread.start()] is followed at once by the first pass
    of [run]. *)
Definition init (comports : list port_info) (class_args : dev_args_t)
                (port : option string) : result iFocus :=
  port <- match port with
          | Some p => Ok p
          | None =>
              devs <- _find_devs comports ;;
              match devs with
              | p :: _ => Ok p
              | [] => Raise (IndexError "list index out of range")
              end
          end ;;
  d <- open_port comports port ;;
  let st := {| status := TERMINATE; save_data := []; parser_buffer := [];
               args := class_args; dev := d; with_q := true;
               socket_flag := None; pc := NotStarted |} in
  st <- set_frequency None st ;;
  let st := set_with_q true st in
  let st := set_socket_flag
              (Some "Device not connected, please connect first."%string) st in
  match connect_socket (dev st) with
  | Raise e => Raise e
  | Ok d =>
      let st := set_dev d st in
      let st := set_status IDLE_START st in
      let st := set_socket_flag None st in
      let st := set_args (set_name port (args st)) st in
      Ok (run_top (set_pc IdleWait st))
  end.

End WithParser.

End DataReader.

(** ** numpy: the array operations of [compute_rms_envelope] *)

Module Np.

Definition abs (a : list float) : list float := map PrimFloat.abs a.

(** [a ** 2] *)
Definition square (a : list float) : list float :=
  map (fun x => PrimFloat.mul x x) a.

Definition sqrt (a : list float) : list float := map PrimFloat.sqrt a.

(** [np.ones(n) / n] *)
Definition ones_div (n : Z) : result (list float) :=
  if n <? 0 then Raise (ValueError "negative dimensions are not allowed")
  else Ok (repeat (PrimFloat.div PrimFloat.one (float_of_int n)) (Z.to_nat n)).

Section Kernel.

(** The inner-product routine [correlate] hands output entry [i] to: the
    sum of the products of two stretches of equal length.  numpy leaves
    the order of the additions (and any fusing of multiply and add) to the
    build, and for short kernels computes the entries away from the
    borders by an unrolled loop of its own, so the routine is taken as
    given, entry by entry; only what is passed to it is modelled. *)
Variable dot : nat -> list float -> list float -> float.

(** [correlate(a, w, mode='same')] for [len(a) >= len(w) >= 1]:
    [n_left = len(w) // 2] taps hang over on the left of entry 0.  Entry
    [i] is the inner product of the stretch of [a] under the kernel,
    starting at [lo], with the taps that meet it, starting at [klo]. *)
Definition correlate_same_with (a w : list float) : list float :=
  let n1 := List.length a in
  let n2 := List.length w in
  let n_left := Nat.div n2 2 in
  let n_right := (n2 - n_left - 1)%nat in
  map (fun i =>
         let lo := (i - n_left)%nat in
         let klo := (n_left - i)%nat in
         let n := (Nat.min n1 (i + n_right + 1) - lo)%nat in
         dot i (firstn n (skipn lo a)) (firstn n (skipn klo w)))
      (seq 0 n1).

(** [np.convolve(a, v, mode='same')] *)
Definition convolve_same_with (a v : list float) : result (list float) :=
  let (a, v) := if (List.length a <? List.length v)%nat then (v, a) else (a, v) in
  if Nat.eqb (List.length a) 0 then Raise (ValueError "a cannot be empty")
  else if Nat.eqb (List.length v) 0 then Raise (ValueError "v cannot be empty")
  else Ok (correlate_same_with a (rev v)).

End Kernel.

(** One inner-product routine, used where a value has to be computed: the
    products are rounded one by one and added in index order.  A numpy
    build may add in another order, and then differ in the last bit. *)
Definition dot_in_order (xs ys : list float) : float :=
  fold_left
    (fun acc p => PrimFloat.add acc (PrimFloat.mul (fst p) (snd p)))
    (combine xs ys) PrimFloat.zero.

Definition correlate_same : list float -> list float -> list float :=
  correlate_same_with (fun _ => dot_in_order).

Definition convolve_same : list float -> list float -> result (list float) :=
  convolve_same_with (fun _ => dot_in_order).

End Np.

(** ** emg_reader.py *)

Module EmgReader.
Import DataReader.

Definition DEFAULT_FS_EEG_HIGH : Z := 500.
Definition DEFAULT_FS_IMU_HIGH : Z := 100.
Definition DEFAULT_FS_EEG_LOW : Z := 250.
Definition DEFAULT_FS_IMU_LOW : Z := 50.
Definition DEFAULT_LOW_CUT : float := 10%float.
Definition DEFAULT_HIGH_CUT : float := 100%float.
Definition DEFAULT_NOTCH : float := 50%float.
Definition FILTER_ORDER : Z := 4.
Definition QUALITY_FACTOR : float := 30%float.
(** [0.2], as the binary64 number the literal denotes. *)
Definition DEFAULT_WINDOW_DURATION : float := 0x1.999999999999ap-3%float.

Definition coeffs : Type := (list float * list float)%type.

Record EMGFilter : Type := {
  fs : Z;
  window_size : Z;
  lowcut : float;
  highcut : float;
  notch_freq : float;
  quality_factor : float;
  raw_data : list float;
  bandpassed_data : list float;
  notched_data : list float;
  envelope_data : list float
}.

(** [EMGFilter.__init__] *)
Definition EMGFilter_init (fs window_size : Z) (low_cut high_cut notch : float)
  : EMGFilter :=
  {| fs := fs; window_size := window_size;
     lowcut := low_cut; highcut := high_cut; notch_freq := notch;
     quality_factor := QUALITY_FACTOR;
     raw_data := []; bandpassed_data := [];
     notched_data := []; envelope_data := [] |}.

(** [2 * x / fs] with [fs] an [int] *)
Definition normalized (x : float) (fs : Z) : result float :=
  if fs =? 0 then Raise (ZeroDivisionError "float division by zero")
  else Ok (PrimFloat.div (PrimFloat.mul (float_of_int 2) x) (float_of_int fs)).

(** [compute_rms_envelope], with the inner-product routine numpy's
    [convolve] runs on. *)
Definition compute_rms_envelope_with (dot : nat -> list float -> list float -> float)
  (self : EMGFilter) (data : list float) : result (list float) :=
  let rect := Np.abs data in
  kernel <- Np.ones_div (window_size self) ;;
  c <- Np.convolve_same_with dot (Np.square rect) kernel ;;
  Ok (Np.sqrt c).

Definition compute_rms_envelope (self : EMGFilter) (data : list float)
  : result (list float) :=
  let rect := Np.abs data in
  kernel <- Np.ones_div (window_size self) ;;
  c <- Np.convolve_same (Np.square rect) kernel ;;
  Ok (Np.sqrt c).

Section WithScipy.

(** [scipy.signal]: the filter design routines and the zero-phase
    filter, taken as given. *)
Variable butter : Z -> float -> float -> result coeffs.
Variable iirnotch : float -> float -> result coeffs.
Variable filtfilt : coeffs -> list float -> result (list float).

Definition bandpass_filter (self : EMGFilter) (data : list float)
  : result (list float) :=
  low_norm <- normalized (lowcut self) (fs self) ;;
  high_norm <- normalized (highcut self) (fs self) ;;
  ba <- butter FILTER_ORDER low_norm high_norm ;;
  filtfilt ba data.

Definition notch_filter (self : EMGFilter) (data : list float)
  : result (list float) :=
  freq_norm <- normalized (notch_freq self) (fs self) ;;
  ba <- iirnotch freq_norm (quality_factor self) ;;
  filtfilt ba data.

Definition set_raw (x : list float) (f : EMGFilter) : EMGFilter :=
  {| fs := fs f; window_size := window_size f; lowcut := lowcut f;
     highcut := highcut f; notch_freq := notch_freq f;
     quality_factor := quality_factor f;
     raw_data := x; bandpassed_data := bandpassed_data f;
     notched_data := notched_data f; envelope_data := envelope_data f |}.

Definition set_bandpassed (x : list float) (f : EMGFilter) : EMGFilter :=
  {| fs := fs f; window_size := window_size f; lowcut := lowcut f;
     highcut := highcut f; notch_freq := notch_freq f;
     quality_factor := quality_factor f;
     raw_data := raw_data f; bandpassed_data := x;
     notched_data := notched_data f; envelope_data := envelope_data f |}.

Definition set_notched (x : list float) (f : EMGFilter) : EMGFilter :=
  {| fs := fs f; window_size := window_size f; lowcut := lowcut f;
     highcut := highcut f; notch_freq := notch_freq f;
     quality_factor := quality_factor f;
     raw_data := raw_data f; bandpassed_data := bandpassed_data f;
     notched_data := x; envelope_data := envelope_data f |}.

Definition set_envelope (x : list float) (f : EMGFilter) : EMGFilter :=
  {| fs := fs f; window_size := window_size f; lowcut := lowcut f;
     highcut := highcut f; notch_freq := notch_freq f;
     quality_factor := quality_factor f;
     raw_data := raw_data f; bandpassed_data := bandpassed_data f;
     notched_data := notched_data f; envelope_data := x |}.

(** [process_data]: an exception leaves the attributes assigned so far;
    the pair is the outcome and the filter object afterwards. *)
Definition process_data (self : EMGFilter) (raw : list float)
  : result unit * EMGFilter :=
  let self := set_raw raw self in
  match bandpass_filter self raw with
  | Raise e => (Raise e, self)
  | Ok bp =>
      let self := set_bandpassed bp self in
      match notch_filter self (bandpassed_data self) with
      | Raise e => (Raise e, self)
      | Ok nt =>
          let self := set_notched nt self in
          match compute_rms_envelope self (notched_data self) with
          | Raise e => (Raise e, self)
          | Ok env => (Ok tt, set_envelope env self)
          end
      end
  end.

End WithScipy.

(** [collections.deque] with a [maxlen] *)
Record deque : Type := {
  items : list float;
  maxlen : nat
}.

Definition deque_new (maxlen : Z) : result deque :=
  if maxlen <? 0 then Raise (ValueError "maxlen must be non-negative")
  else Ok {| items := []; maxlen := Z.to_nat maxlen |}.

(** [append]: a full deque discards from the left. *)
Definition deque_append (x : float) (d : deque) : deque :=
  let it := items d ++ [x] in
  {| items := if (maxlen d <? List.length it)%nat then tl it else it;
     maxlen := maxlen d |}.

Definition deque_clear (d : deque) : deque :=
  {| items := []; maxlen := maxlen d |}.

Definition deque_len (d : deque) : Z := Z.of_nat (List.length (items d)).

(** The appends of [_read_loop] on their own, in arrival order. *)
Definition push_all (xs : list float) (d : deque) : deque :=
  fold_left (fun d x => deque_append x d) xs d.

(** The choice of rates at the head of [EMGReader.__init__]. *)
Definition select_rates (sample_rate_variant : string) : Z * Z :=
  if String.eqb sample_rate_variant "low"
  then (DEFAULT_FS_EEG_LOW, DEFAULT_FS_IMU_LOW)
  else (DEFAULT_FS_EEG_HIGH, DEFAULT_FS_IMU_HIGH).

(** [int(fs * DEFAULT_WINDOW_DURATION)] *)
Definition compute_window_size (fs : Z) : result Z :=
  match int_of_float (PrimFloat.mul (float_of_int fs) DEFAULT_WINDOW_DURATION) with
  | Some n => Ok n
  | None => Raise (OverflowError "cannot convert float infinity to integer")
  end.

Module Reader.

Record EMGReader : Type := {
  device : iFocus;
  device_port : option string;
  fs : Z;
  lowcut : float;
  highcut : float;
  window_size : Z;
  filter : EMGFilter;
  recent_points : deque;
  samples_per_packet : nat;
  running : bool;
  (** [None]: no thread object; [Some alive] otherwise *)
  read_thread : option bool
}.

Definition set_device (x : iFocus) (r : EMGReader) : EMGReader :=
  {| device := x; device_port := device_port r; fs := fs r;
     lowcut := lowcut r; highcut := highcut r; window_size := window_size r;
     filter := filter r; recent_points := recent_points r;
     samples_per_packet := samples_per_packet r; running := running r;
     read_thread := read_thread r |}.

Definition set_filter (x : EMGFilter) (r : EMGReader) : EMGReader :=
  {| device := device r; device_port := device_port r; fs := fs r;
     lowcut := lowcut r; highcut := highcut r; window_size := window_size r;
     filter := x; recent_points := recent_points r;
     samples_per_packet := samples_per_packet r; running := running r;
     read_thread := read_thread r |}.

Definition set_recent_points (x : deque) (r : EMGReader) : EMGReader :=
  {| device := device r; device_port := device_port r; fs := fs r;
     lowcut := lowcut r; highcut := highcut r; window_size := window_size r;
     filter := filter r; recent_points := x;
     samples_per_packet := samples_per_packet r; running := running r;
     read_thread := read_thread r |}.

Definition set_running (x : bool) (r : EMGReader) : EMGReader :=
  {| device := device r; device_port := device_port r; fs := fs r;
     lowcut := lowcut r; highcut := highcut r; window_size := window_size r;
     filter := filter r; recent_points := recent_points r;
     samples_per_packet := samples_per_packet r; running := x;
     read_thread := read_thread r |}.

Definition set_read_thread (x : option bool) (r : EMGReader) : EMGReader :=
  {| device := device r; device_port := device_port r; fs := fs r;
     lowcut := lowcut r; highcut := highcut r; window_size := window_size r;
     filter := filter r; recent_points := recent_points r;
     samples_per_packet := samples_per_packet r; running := running r;
     read_thread := x |}.

(** [EMGReader.__init__]: the outcome, and the class attribute
    [iFocus.dev_args] after the [update]. *)
Definition init (comports : list EmgSock.port_info) (class_args : dev_args_t)
                (low_cut high_cut notch : float) (sample_rate_variant : string)
  : result EMGReader * dev_args_t :=
  let (eeg, imu) := select_rates sample_rate_variant in
  let class_args := set_rates eeg imu class_args in
  (dv <- DataReader.init comports class_args None ;;
   let fs := fs_eeg (args dv) in
   ws <- compute_window_size fs ;;
   dq <- deque_new ws ;;
   Ok {| device := dv;
         device_port := name (args dv);
         fs := fs; lowcut := low_cut; highcut := high_cut;
         window_size := ws;
         filter := EMGFilter_init fs ws low_cut high_cut notch;
         recent_points := dq;
         samples_per_packet := 5;
         running := false;
         read_thread := None |},
   class_args).

Section WithLibraries.

Variable parse_data : list byte -> list byte -> result (list frame * list byte).
Variable butter : Z -> float -> float -> result coeffs.
Variable iirnotch : float -> float -> result coeffs.
Variable filtfilt : coeffs -> list float -> result (list float).

Definition _process_emg_data (self : EMGReader) : result unit * EMGReader :=
  if deque_len (recent_points self) <? window_size self then (Ok tt, self)
  else
    let arr := items (recent_points self) in
    let (r, f) := process_data butter iirnotch filtfilt (filter self) arr in
    (r, set_filter f self).

(** [for val in emg_values: ...] of [_read_loop] *)
Fixpoint append_values (vals : list float) (self : EMGReader)
  : result unit * EMGReader :=
  match vals with
  | [] => (Ok tt, self)
  | val :: vals' =>
      let self := set_recent_points (deque_append val (recent_points self)) self in
      let (r, self) :=
        if window_size self <=? deque_len (recent_points self)
        then _process_emg_data self
        else (Ok tt, self) in
      match r with
      | Ok _ => append_values vals' self
      | Raise e => (Raise e, self)
      end
  end.

(** [[sample[0] for sample in frame[:n]]] *)
Fixpoint first_of_each (samples : list (list float)) : result (list float) :=
  match samples with
  | [] => Ok []
  | [] :: _ => Raise (IndexError "list index out of range")
  | (x :: _) :: rest =>
      xs <- first_of_each rest ;;
      Ok (x :: xs)
  end.

(** [for frame in frames: ...] of [_read_loop] *)
Fixpoint process_frames (frames : list frame) (self : EMGReader)
  : result unit * EMGReader :=
  match frames with
  | [] => (Ok tt, self)
  | fr :: frames' =>
      match fr with
      | [] => process_frames frames' self
      | _ :: _ =>
          match first_of_each (firstn (samples_per_packet self) fr) with
          | Raise e => (Raise e, self)
          | Ok emg_values =>
              let (r, self) := append_values emg_values self in
              match r with
              | Ok _ => process_frames frames' self
              | Raise e => (Raise e, self)
              end
          end
      end
  end.

(** One turn of the [while self.running] of [_read_loop]. *)
Definition _read_loop_turn (self : EMGReader)
  : option (result unit * EMGReader) :=
  match get_data parse_data (device self) with
  | None => None
  | Some (Raise e, dv) => Some (Raise e, set_device dv self)
  | Some (Ok frames, dv) =>
      let self := set_device dv self in
      match frames with
      | None | Some [] => Some (Ok tt, self)
      | Some fs => Some (process_frames fs self)
      end
  end.

Definition start_reading (self : EMGReader)
  : option (result unit * EMGReader) :=
  if running self then Some (Ok tt, self)
  else
    let self := set_running true self in
    match start_acquisition_data parse_data true (device self) with
    | None => None
    | Some (Raise e, dv) => Some (Raise e, set_device dv self)
    | Some (Ok _, dv) =>
        Some (Ok tt, set_read_thread (Some true) (set_device dv self))
    end.

Definition stop_reading (self : EMGReader)
  : option (result unit * EMGReader) :=
  if negb (running self) then Some (Ok tt, self)
  else
    let self := set_running false self in
    let self := match read_thread self with
                | Some true => set_read_thread (Some false) self
                | _ => self
                end in
    match stop_acquisition parse_data (device self) with
    | None => None
    | Some (Raise e, dv) => Some (Raise e, set_device dv self)
    | Some (Ok _, dv) =>
        match close_dev parse_data dv with
        | None => None
        | Some (Raise e, dv) => Some (Raise e, set_device dv self)
        | Some (Ok _, dv) =>
            Some (Ok tt,
                  set_recent_points (deque_clear (recent_points self))
                    (set_device dv self))
        end
    end.

End WithLibraries.

End Reader.

End EmgReader.

(** ** The envelope as the specification words it *)

Module Reference.

Section Sum.

(** The sum of products [sum_k xs[k] * ys[k]] of two stretches of equal
    length, in whatever floating-point arithmetic the sum of output entry
    [i] is computed. *)
Variable dot : nat -> list float -> list float -> float.

(** Discrete convolution at index [m]: the sum over [j] of
    [x[j] * h[m - j]], the terms taken where both indices exist, that is
    for [j] from [lo = m - (len(h) - 1)] (or 0) up to [hi - 1] with
    [hi = min(len(x), m + 1)].  As [j] goes up the tap index [m - j]
    goes down, from [m - lo] to [m + 1 - hi]. *)
Definition conv_at (sum : list float -> list float -> float)
  (x h : list float) (m : nat) : float :=
  let lo := (m + 1 - List.length h)%nat in
  let hi := Nat.min (List.length x) (m + 1) in
  sum (firstn (hi - lo) (skipn lo x))
      (rev (firstn (hi - lo) (skipn (m + 1 - hi) h))).

(** Centered convolution of the length of [x]: entry [i] is the full
    convolution at [i + (len(h) - 1) // 2]. *)
Definition conv_centered (x h : list float) : list float :=
  map (fun i => conv_at (dot i) x h (i + (List.length h - 1) / 2))
      (seq 0 (List.length x)).

(** The uniform moving-average kernel of [n] taps. *)
Definition uniform_kernel (n : nat) : list float :=
  repeat (PrimFloat.div PrimFloat.one (float_of_int (Z.of_nat n))) n.

(** Rectify, square, convolve with the moving-average kernel of the
    window length, take the square root. *)
Definition rms_envelope (window : nat) (signal : list float) : list float :=
  map PrimFloat.sqrt
    (conv_centered
       (map (fun v => PrimFloat.mul (PrimFloat.abs v) (PrimFloat.abs v)) signal)
       (uniform_kernel window)).

End Sum.

(** The same sum written term by term, the terms added in the order of
    [j]: what [conv_at] is with the routine that adds in index order. *)
Definition conv_at_in_order (x h : list float) (m : nat) : float :=
  fold_left
    (fun acc j =>
       if (j <=? m)%nat && (m - j <? List.length h)%nat
       then PrimFloat.add acc
              (PrimFloat.mul (nth j x PrimFloat.zero) (nth (m - j) h PrimFloat.zero))
       else acc)
    (seq 0 (List.length x)) PrimFloat.zero.

End Reference.

(** ** Concrete instruments and sessions *)

Module Examples.
Import EmgSock DataReader EmgReader.

(** Five channels: 1, -1, -8388608, 8388607, 10000; two IMU bytes. *)
Definition sample_packet : list byte :=
  [x01; x00; x00;  xff; xff; xff;  x00; x00; x80;  xff; xff; x7f;
   x10; x27; x00;  xaa; xbb].

(** An instrument with current firmware: it acknowledges the rate
    commands and streams after the start command. *)
Definition instrument (cmd : list byte) : list byte :=
  match cmd with
  | [x01] => sample_packet
  | [x04] | [x05] => [x00]
  | _ => []
  end.

(** Old firmware: the 500 Hz command is not acknowledged. *)
Definition old_instrument (cmd : list byte) : list byte :=
  match cmd with
  | [x01] => sample_packet
  | [x04] => [x00]
  | _ => []
  end.

Definition usb0 : Serial :=
  {| port_name := "/dev/ttyUSB0"; out_log := []; in_buf := [];
     reply := instrument; broken := false; closed := false |}.

Definition usb_old : Serial :=
  {| port_name := "/dev/ttyUSB0"; out_log := []; in_buf := [];
     reply := old_instrument; broken := false; closed := false |}.

Definition comports : list port_info :=
  [ {| device := "/dev/ttyS0"; manufacturer := None; hardware := None |};
    {| device := "/dev/ttyUSB0"; manufacturer := Some "FTDI"%string;
       hardware := Some usb0 |} ].

(** A parser that keeps every byte and completes no frame. *)
Definition hoarding_parser (buf data : list byte)
  : result (list frame * list byte) := Ok ([], buf ++ data).

(** Stand-ins for [scipy.signal] that leave the signal as it is. *)
Definition unit_butter (order : Z) (lo hi : float) : result coeffs :=
  Ok ([PrimFloat.one], [PrimFloat.one]).
Definition unit_iirnotch (w q : float) : result coeffs :=
  Ok ([PrimFloat.one], [PrimFloat.one]).
Definition unit_filtfilt (ba : coeffs) (x : list float) : result (list float) :=
  Ok x.

(** The controller as [iFocus()] leaves it over [comports] at 250 Hz:
    connected, idle, the answer to the trial start still unread. *)
Definition idle_device : iFocus :=
  {| status := IDLE;
     save_data := [];
     parser_buffer := [];
     args := set_name "/dev/ttyUSB0" (set_rates 250 50 dev_args);
     dev := {| port_name := "/dev/ttyUSB0";
               out_log := [x04; x01; x02];
               in_buf := sample_packet;
               reply := instrument; broken := false; closed := false |};
     with_q := true;
     socket_flag := None;
     pc := IdleWait |}.

(** The reader as [EMGReader(sample_rate_variant="low")] leaves it. *)
Definition low_reader : Reader.EMGReader :=
  {| Reader.device := idle_device;
     Reader.device_port := Some "/dev/ttyUSB0"%string;
     Reader.fs := 250;
     Reader.lowcut := DEFAULT_LOW_CUT;
     Reader.highcut := DEFAULT_HIGH_CUT;
     Reader.window_size := 50;
     Reader.filter :=
       EMGFilter_init 250 50 DEFAULT_LOW_CUT DEFAULT_HIGH_CUT DEFAULT_NOTCH;
     Reader.recent_points := {| items := []; maxlen := 50 |};
     Reader.samples_per_packet := 5;
     Reader.running := false;
     Reader.read_thread := None |}.

(** The same reader with three samples in its window. *)
Definition short_reader : Reader.EMGReader :=
  Reader.set_recent_points
    (push_all [1%float; 2%float; 3%float] (Reader.recent_points low_reader))
    low_reader.

(** A filter with a window of three samples, and a window of four. *)
Definition small_filter : EMGFilter :=
  EMGFilter_init 250 3 DEFAULT_LOW_CUT DEFAULT_HIGH_CUT DEFAULT_NOTCH.

Definition full_window : list float := [1; -2; 3; -4]%float.

(** One frame: five EEG samples and an IMU triple. *)
Definition sample_frame : frame :=
  [[1]; [2]; [3]; [4]; [5]; [0; 0; 0]]%float.

(** The controller in the middle of an acquisition: bytes of an unfinished
    frame in the parser, one batch of frames waiting on the queue. *)
Definition acquiring_device : iFocus :=
  set_save_data [Some [sample_frame]]
    (run hoarding_parser idle_device [StatusWrite SIGNAL_START; Tick]).

(** The controller after the link broke during acquisition: the fault
    is recorded and the thread has ended. *)
Definition faulted_device : iFocus :=
  run hoarding_parser idle_device [StatusWrite SIGNAL_START; Tick; LinkFails].

End Examples.

(** ** Wire encoding of a channel value, as a sender produces it *)

Module Codec.

(** [v.to_bytes(3, "little", signed=True)] for a 24-bit signed [v]. *)
Definition encode_channel (v : Z) : list byte := le_digits 3 (v mod 2 ^ 24).

(** The EMG payload of a frame carrying the channel values [vs]. *)
Definition encode_channels (vs : list Z) : list byte := flat_map encode_channel vs.

(** The scaled two's-complement reading of the field of channel [i]. *)
Definition channel_value (packet : list byte) (i : nat) : float :=
  PrimFloat.mul
    (float_of_int
       (EmgParser.twos_complement24
          (int_from_bytes_le (EmgParser.channel_field packet i))))
    EmgParser.SCALE.

End Codec.

(** ** Which listed ports the probe keeps *)

Module Ports.
Import EmgSock.

(** A listed port counts when its manufacturer string mentions FTDI and
    opening it succeeds. *)
Definition usable (dv : port_info) : bool :=
  match manufacturer dv, hardware dv with
  | Some m, Some _ => contains "FTDI" m
  | _, _ => false
  end.

(** The byte that selects a rate. *)
Definition rate_command (rate : Z) : list byte :=
  if rate =? 250 then [x04] else [x05].

End Ports.

(** ** More concrete controllers *)

Module MoreExamples.
Import EmgSock DataReader Examples.

(** The idle controller after an orderly close. *)
Definition closed_device : iFocus :=
  run hoarding_parser idle_device [StatusWrite TERMINATE_START].

(** The acquiring controller after its link has broken, before the
    thread has noticed. *)
Definition cut_off_device : iFocus := apply_event LinkFails acquiring_device.

(** A parser that rejects everything. *)
Definition failing_parser (buf data : list byte)
  : result (list frame * list byte) := Raise (ValueError "bad frame").

(** The acquiring controller with nothing waiting on the wire. *)
Definition quiet_device : iFocus :=
  apply_event Consume
    (set_dev (set_in_buf [] (dev acquiring_device)) acquiring_device).

(** A controller with two batches of frames queued. *)
Definition stocked_device : iFocus :=
  set_save_data [Some [sample_frame]; Some [sample_frame; sample_frame]] idle_device.

End MoreExamples.

(** ** emg_reader.py: the snapshot properties *)

Module Snapshot.
Import EmgReader.

(** The dictionary [last_emg] returns. *)
Record emg_signals : Type := {
  raw : list float;
  bandpass : list float;
  notch : list float;
  envelope : list float
}.

(** [EMGReader.last_emg]: the raw entry is the window itself, the other
    three are the filter's latest results. *)
Definition last_emg (self : Reader.EMGReader) : emg_signals :=
  {| raw := items (Reader.recent_points self);
     bandpass := bandpassed_data (Reader.filter self);
     notch := notched_data (Reader.filter self);
     envelope := envelope_data (Reader.filter self) |}.

End Snapshot.

(** ** core.py *)

Module Core.

(** [lst[start:]] for any integer [start]: a negative one counts from the
    end, and both are clamped to the list. *)
Definition slice_from {A} (start : Z) (lst : list A) : list A :=
  let len := Z.of_nat (List.length lst) in
  let s := if start <? 0 then Z.max 0 (start + len) else Z.min start len in
  skipn (Z.to_nat s) lst.

(** The helper [get_last_samples] of [run_in_loop], closed over
    [n_samples]. *)
Definition get_last_samples {A} (n_samples : Z) (lst : list A) : list A :=
  if n_samples <=? Z.of_nat (List.length lst) then slice_from (- n_samples) lst
  else lst.

(** [notch=60 if self.config.get("notch") == "60 hz" else 50] *)
Definition notch_of_config (notch : option string) : Z :=
  match notch with
  | Some s => if String.eqb s "60 hz" then 60 else 50
  | None => 50
  end.

End Core.

(** ** More concrete sessions *)

Module SessionExamples.
Import EmgSock DataReader EmgReader Examples.

(** The low-rate reader after [start_reading]. *)
Definition started_reader : Reader.EMGReader :=
  match Reader.start_reading hoarding_parser low_reader with
  | Some (_, r) => r
  | None => low_reader
  end.

(** A listing whose only FTDI port has the old firmware. *)
Definition old_comports : list port_info :=
  [ {| device := "/dev/ttyUSB0"; manufacturer := Some "FTDI"%string;
       hardware := Some usb_old |} ].

(** A listing without any FTDI port. *)
Definition foreign_comports : list port_info :=
  [ {| device := "/dev/ttyS0"; manufacturer := None; hardware := Some usb0 |};
    {| device := "/dev/ttyACM0"; manufacturer := Some "Arduino"%string;
       hardware := Some usb0 |} ].

End SessionExamples.

(** ** A reader with a full window *)

Module FullWindow.
Import EmgReader Examples.

(** A reader whose window of three samples is full. *)
Definition tiny_full_reader : Reader.EMGReader :=
  {| Reader.device := idle_device;
     Reader.device_port := Some "/dev/ttyUSB0"%string;
     Reader.fs := 250;
     Reader.lowcut := DEFAULT_LOW_CUT;
     Reader.highcut := DEFAULT_HIGH_CUT;
     Reader.window_size := 3;
     Reader.filter := small_filter;
     Reader.recent_points := {| items := [1; 2; 3]%float; maxlen := 3 |};
     Reader.samples_per_packet := 5;
     Reader.running := true;
     Reader.read_thread := Some true |}.

End FullWindow.

(** ** Windows for the filter of a 250 Hz reader *)

Module PipelineExamples.
Import EmgReader.

(** The filter [EMGReader] builds at 250 Hz: a window of 50 samples. *)
Definition low_filter : EMGFilter :=
  EMGFilter_init 250 50 DEFAULT_LOW_CUT DEFAULT_HIGH_CUT DEFAULT_NOTCH.

(** [n] samples 0, 1, 2, ... *)
Definition ramp (n : nat) : list float :=
  map (fun k => float_of_int (Z.of_nat k)) (seq 0 n).

(** Thirty samples: fewer than the window size, more than the 27 samples
    of padding [filtfilt] needs for the order-4 bandpass. *)
Definition short_window : list float := ramp 30.

Definition whole_window : list float := ramp 50.

(** [scipy.signal.iirnotch] as far as its argument check goes: a
    normalized frequency above 1 or below 0 is refused. *)
Definition strict_iirnotch (w q : float) : result coeffs :=
  if PrimFloat.ltb PrimFloat.one w || PrimFloat.ltb w PrimFloat.zero
  then Raise (ValueError "w0 should be such that 0 < w0 < 1")
  else Ok ([PrimFloat.one], [PrimFloat.one]).

(** The filter of a 250 Hz reader built with [notch=150]: the notch lies
    above the Nyquist frequency of 125 Hz. *)
Definition misnotched_filter : EMGFilter :=
  EMGFilter_init 250 50 DEFAULT_LOW_CUT DEFAULT_HIGH_CUT 150%float.

End PipelineExamples.

(** ** A controller on its way out of an acquisition *)

Module FaultExamples.
Import EmgSock DataReader Examples.

(** The controller at the moment the loop of [__recv_data] has recorded a
    transfer fault: the status is TERMINATE_START and the thread, still
    alive, has yet to leave the loop and close the port. *)
Definition faulting_device : iFocus :=
  recv_fault SerialException acquiring_device.

End FaultExamples.

(** ** A port with unread input *)

Module PortExamples.
Import EmgSock Examples.


End PortExamples.

(** ** Recomputation sample by sample *)

Module PerSample.
Import EmgReader.

Section WithScipy.

Variable butter : Z -> float -> float -> result coeffs.
Variable iirnotch : float -> float -> result coeffs.
Variable filtfilt : coeffs -> list float -> result (list float).

(** "Every sample recomputes the filter", written out: for each sample
    in turn, append it to the window, run the filter pipeline on the
    window as it then is and keep what the pipeline leaves in the filter;
    stop at the first error. *)
Fixpoint refilter_each (vals : list float) (self : Reader.EMGReader)
  : result unit * Reader.EMGReader :=
  match vals with
  | [] => (Ok tt, self)
  | val :: vals' =>
      let dq := deque_append val (Reader.recent_points self) in
      let (r, f) := process_data butter iirnotch filtfilt (Reader.filter self) (items dq) in
      let self := Reader.set_filter f (Reader.set_recent_points dq self) in
      match r with
      | Ok _ => refilter_each vals' self
      | Raise e => (Raise e, self)
      end
  end.

End WithScipy.

(** A zero-phase filter that refuses any window whose last sample is 5. *)
Definition choosy_filtfilt (ba : coeffs) (x : list float) : result (list float) :=
  if PrimFloat.eqb (last x PrimFloat.zero) 5%float
  then Raise (ValueError "window refused")
  else Ok x.

End PerSample.

(** * Properties *)

(** ** Byte strings and integers *)

Module PyFacts.

Lemma byte_to_Z_range b : 0 <= byte_to_Z b < 256.
Proof.
  unfold byte_to_Z. pose proof (Byte.to_N_bounded b). lia.
Qed.

Lemma byte_to_of_Z z : byte_to_Z (byte_of_Z z) = z mod 256.
Proof.
  unfold byte_to_Z, byte_of_Z.
  pose proof (Z.mod_pos_bound z 256 eq_refl) as Hm.
  destruct (Byte.of_N (Z.to_N (z mod 256))) as [b | ] eqn:E.
  - apply Byte.to_of_N in E. rewrite E. lia.
  - apply Byte.of_N_None_iff in E. lia.
Qed.

Lemma le_digits_length n : forall v, List.length (le_digits n v) = n.
Proof.
  induction n as [ | n IH]; intros v; cbn; [ reflexivity | now rewrite IH ].
Qed.

Lemma int_from_le_digits n : forall v,
  0 <= v < 256 ^ Z.of_nat n -> int_from_bytes_le (le_digits n v) = v.
Proof.
  induction n as [ | n IH]; intros v Hv.
  - cbn in *. lia.
  - cbn [le_digits int_from_bytes_le].
    rewrite byte_to_of_Z, IH.
    + pose proof (Z.div_mod v 256). lia.
    + rewrite Nat2Z.inj_succ, Z.pow_succ_r in Hv by lia.
      split; [ apply Z.div_pos; lia | apply Z.div_lt_upper_bound; lia ].
Qed.

Lemma int_from_bytes_le_range bs :
  0 <= int_from_bytes_le bs < 256 ^ Z.of_nat (List.length bs).
Proof.
  induction bs as [ | b bs IH].
  - cbn. lia.
  - cbn [int_from_bytes_le List.length].
    rewrite Nat2Z.inj_succ, Z.pow_succ_r by lia.
    pose proof (byte_to_Z_range b). lia.
Qed.

Lemma land_bit23 u : 0 <= u < 2 ^ 24 ->
  Z.land u 0x00800000 = if u <? 2 ^ 23 then 0 else 0x00800000.
Proof.
  intros Hu.
  change 0x00800000 with (2 ^ 23).
  destruct (Z.ltb_spec u (2 ^ 23)) as [Hlt | Hge];
    apply Z.bits_inj'; intros n Hn;
    rewrite Z.land_spec, ?Z.bits_0, Z.pow2_bits_eqb by lia;
    (destruct (Z.eqb_spec 23 n) as [<- | Hne]; [ | apply andb_false_r ]);
    rewrite andb_true_r.
  - apply Z.bits_above_log2; [lia | ].
    destruct (Z.eq_dec u 0) as [-> | Hnz]; [ cbn; lia | ].
    apply Z.log2_lt_pow2; lia.
  - apply Z.testbit_true; [lia | ].
    assert (u / 2 ^ 23 = 1) as ->; [ | reflexivity ].
    symmetry. apply (Z.div_unique u (2 ^ 23) 1 (u - 2 ^ 23)); lia.
Qed.

Lemma lor_high_byte u : 0 <= u < 2 ^ 24 ->
  Z.lor u 0xFF000000 = u + 0xFF000000.
Proof.
  intros Hu.
  rewrite <- (Z.add_lor_land u 0xFF000000).
  assert (Z.land u 0xFF000000 = 0) as ->; [ | lia ].
  apply Z.bits_inj'. intros n Hn.
  rewrite Z.land_spec, Z.bits_0.
  destruct (Z.ltb_spec n 24) as [Hlt | Hge].
  - change 0xFF000000 with (Z.shiftl 255 24).
    rewrite (Z.shiftl_spec_low 255 24 n) by lia. apply andb_false_r.
  - assert (Z.testbit u n = false) as ->; [ | reflexivity ].
    destruct (Z.eq_dec u 0) as [-> | Hnz]; [ apply Z.bits_0 | ].
    apply Z.bits_above_log2; [lia | ].
    apply Z.lt_le_trans with 24; [ apply Z.log2_lt_pow2; lia | lia ].
Qed.

End PyFacts.

(** ** The packet parser *)

Module EmgParserFacts.
Import EmgParser PyFacts Examples.

(** The sign-extension path of [parse_packet] computes the two's
    complement reading of a 24-bit value and never overflows. *)
Lemma sign_extend_24 u : 0 <= u < 2 ^ 24 ->
  (if negb (Z.land u 0x00800000 =? 0) then
     bs <- int_to_bytes_le 4 (Z.lor u 0xFF000000) ;;
     struct_unpack_i32_le bs
   else Ok u) = Ok (twos_complement24 u).
Proof.
  intros Hu. unfold twos_complement24.
  rewrite land_bit23 by assumption.
  destruct (Z.ltb_spec u (2 ^ 23)) as [Hlt | Hge]; [ reflexivity | ].
  cbn [Z.eqb negb]. rewrite lor_high_byte by assumption.
  unfold int_to_bytes_le.
  destruct (Z.ltb_spec (u + 0xFF000000) 0) as [ | _]; [ lia | ].
  destruct (Z.leb_spec (256 ^ Z.of_nat 4) (u + 0xFF000000)) as [Hbig | _];
    [ cbn in Hbig; lia | ].
  cbn [bind]. unfold struct_unpack_i32_le.
  rewrite le_digits_length, int_from_le_digits by (cbn; lia).
  cbn [Nat.eqb].
  destruct (Z.ltb_spec (u + 0xFF000000) (2 ^ 31)) as [ | _]; [ lia | ].
  f_equal. lia.
Qed.

Lemma decode_channel_field emg_bytes i :
  List.length (slice (i * 3) (i * 3 + 3) emg_bytes) = 3%nat ->
  decode_channel emg_bytes i =
  Ok (PrimFloat.mul
        (float_of_int
           (twos_complement24 (int_from_bytes_le (slice (i * 3) (i * 3 + 3) emg_bytes))))
        SCALE).
Proof.
  intros Hlen. unfold decode_channel.
  pose proof (int_from_bytes_le_range (slice (i * 3) (i * 3 + 3) emg_bytes)) as Hr.
  rewrite Hlen in Hr.
  rewrite sign_extend_24; [ reflexivity | ].
  change (256 ^ Z.of_nat 3) with (2 ^ 24) in Hr. exact Hr.
Qed.

Lemma slice_firstn {A} lo hi n (l : list A) :
  (hi <= n)%nat -> slice lo hi (firstn n l) = slice lo hi l.
Proof.
  intros H. unfold slice.
  rewrite skipn_firstn_comm, firstn_firstn.
  f_equal. lia.
Qed.

Lemma slice_length {A} lo hi (l : list A) :
  (lo <= hi <= List.length l)%nat -> List.length (slice lo hi l) = (hi - lo)%nat.
Proof.
  intros H. unfold slice. rewrite length_firstn, length_skipn. lia.
Qed.

(** C1: for every buffer of at least 15 bytes, [parse_packet] returns
    five EMG values and the untouched rest of the buffer; channel [i]
    (0 <= i < 5) is the product of the scale factor 0.0240405 with the
    two's-complement reading of the unsigned little-endian 24-bit
    integer held in bytes [3i, 3i+3). *)
Theorem parse_packet_decodes_channels (packet : list byte) :
  (15 <= List.length packet)%nat ->
  exists vals,
    parse_packet packet = Ok {| emg := vals; imu := skipn 15 packet |} /\
    List.length vals = 5%nat /\
    forall i, (i < 5)%nat ->
      nth_error vals i =
      Some (PrimFloat.mul
              (float_of_int
                 (twos_complement24 (int_from_bytes_le (channel_field packet i))))
              SCALE).
Proof.
  intros Hlen.
  assert (Hch : forall i, (i < 5)%nat ->
    decode_channel (firstn 15 packet) i =
    Ok (PrimFloat.mul
          (float_of_int
             (twos_complement24 (int_from_bytes_le (channel_field packet i))))
          SCALE)).
  { intros i Hi. rewrite decode_channel_field.
    - rewrite slice_firstn by lia. unfold channel_field.
      replace (3 * i)%nat with (i * 3)%nat by lia. reflexivity.
    - rewrite slice_firstn by lia. rewrite slice_length; lia. }
  unfold parse_packet.
  destruct (Nat.ltb_spec (List.length packet) 15) as [ | _]; [ lia | ].
  cbn [seq decode_channels].
  rewrite !Hch by lia. cbn [bind app].
  eexists. split; [ reflexivity | ]. split; [ reflexivity | ].
  intros i Hi.
  do 5 (destruct i as [ | i]; [ reflexivity | ]). lia.
Qed.

Lemma parse_packet_decodes_channels_witness :
  exists vals,
    parse_packet sample_packet = Ok {| emg := vals; imu := [xaa; xbb] |} /\
    List.length vals = 5%nat /\
    forall i, (i < 5)%nat ->
      nth_error vals i =
      Some (PrimFloat.mul
              (float_of_int
                 (twos_complement24
                    (int_from_bytes_le (channel_field sample_packet i))))
              SCALE).
Proof.
  apply (parse_packet_decodes_channels sample_packet). cbn. lia.
Defined.

End EmgParserFacts.

(** ** The transport *)

Module EmgSockFacts.
Import EmgSock Examples PortExamples.





End EmgSockFacts.

(** ** The sample window *)

Module WindowFacts.
Import EmgReader.

Lemma deque_append_maxlen x d : maxlen (deque_append x d) = maxlen d.
Proof. reflexivity. Qed.


Lemma deque_append_items x d :
  (List.length (items d) <= maxlen d)%nat ->
  items (deque_append x d) =
  skipn (List.length (items d ++ [x]) - maxlen d) (items d ++ [x]) /\
  (List.length (items (deque_append x d)) <= maxlen d)%nat.
Proof.
  intros Hle. unfold deque_append. cbn [items].
  rewrite length_app. cbn [List.length].
  destruct (Nat.ltb_spec (maxlen d) (List.length (items d) + 1)) as [Hfull | Hroom].
  - replace (List.length (items d) + 1 - maxlen d)%nat with 1%nat by lia.
    split; [ now destruct (items d ++ [x]) | ].
    destruct (items d ++ [x]) eqn:E; cbn; [ lia | ].
    apply (f_equal (@List.length float)) in E.
    rewrite length_app in E. cbn in E. lia.
  - replace (List.length (items d) + 1 - maxlen d)%nat with 0%nat by lia.
    split; [ reflexivity | ]. rewrite length_app. cbn. lia.
Qed.

(** After any run of appends a bounded deque holds the newest
    [maxlen] elements of everything it was given, oldest first. *)
Lemma push_all_items xs : forall d,
  (List.length (items d) <= maxlen d)%nat ->
  items (push_all xs d) =
  skipn (List.length (items d ++ xs) - maxlen d) (items d ++ xs).
Proof.
  induction xs as [ | x xs IH]; intros d Hle.
  - cbn. rewrite app_nil_r.
    replace (List.length (items d) - maxlen d)%nat with 0%nat by lia.
    reflexivity.
  - change (push_all (x :: xs) d) with (push_all xs (deque_append x d)).
    destruct (deque_append_items x d Hle) as [Hit Hle'].
    rewrite IH by exact Hle'. rewrite deque_append_maxlen.
    rewrite Hit.
    set (l := items d ++ [x]).
    set (n := (List.length l - maxlen d)%nat).
    replace (items d ++ x :: xs) with (l ++ xs)
      by (unfold l; rewrite <- app_assoc; reflexivity).
    assert (Happ : skipn n l ++ xs = skipn n (l ++ xs)).
    { rewrite skipn_app.
      replace (n - List.length l)%nat with 0%nat by (unfold n; lia).
      reflexivity. }
    rewrite Happ, skipn_skipn, length_skipn. f_equal.
    rewrite length_app. unfold n. lia.
Qed.

End WindowFacts.

(** ** Construction of the controller and of the reader *)

Module InitFacts.
Import EmgSock DataReader EmgReader.

(** Splits an equation [x <- c ;; k = Ok v] on the outcome of [c]. *)
Ltac bind_ok H :=
  match type of H with
  | bind ?c _ = Ok _ =>
      let E := fresh "E" in
      destruct c eqn:E; cbn [bind] in H; [ | discriminate H ]
  end.

Lemma set_frequency_args rate st st' :
  DataReader.set_frequency rate st = Ok st' ->
  let r := match rate with Some r => r | None => fs_eeg (args st) end in
  (r = 250 \/ r = 500) /\
  args st' = set_rates r (r / 5) (args st) /\
  status st' = status st /\ socket_flag st' = socket_flag st /\ pc st' = pc st.
Proof.
  unfold DataReader.set_frequency. intros H.
  destruct (Dev_eqb (status st) SIGNAL); [ discriminate | ].
  set (r := match rate with Some r => r | None => fs_eeg (args st) end) in *.
  cbn zeta.
  destruct (Z.eqb_spec r 250) as [E250 | N250];
    destruct (Z.eqb_spec r 500) as [E500 | N500];
    cbn [orb negb] in H; try discriminate H;
    bind_ok H; inversion H; subst st'; cbn; auto 6.
Qed.

(** A controller that [iFocus()] returns is idle, without a recorded
    fault, at one of the two rates, the one the class attribute named. *)
Lemma init_controller comports cls port dv :
  DataReader.init comports cls port = Ok dv ->
  (fs_eeg (args dv) = 250 \/ fs_eeg (args dv) = 500) /\
  fs_eeg (args dv) = fs_eeg cls /\
  fs_imu (args dv) = fs_eeg cls / 5 /\
  status dv = IDLE /\ socket_flag dv = None /\ pc dv = IdleWait.
Proof.
  unfold DataReader.init. intros H.
  bind_ok H. bind_ok H. bind_ok H.
  apply set_frequency_args in E1. cbn in E1.
  destruct E1 as (Hr & Ha & _).
  destruct (connect_socket _) as [d | e]; [ | discriminate H ].
  inversion H; subst dv; clear H. cbn.
  rewrite Ha. cbn. auto 6.
Qed.

Lemma compute_window_size_250 : compute_window_size 250 = Ok 50.
Proof. vm_compute. reflexivity. Qed.

Lemma compute_window_size_500 : compute_window_size 500 = Ok 100.
Proof. vm_compute. reflexivity. Qed.

Lemma select_rates_low v :
  select_rates v = (250, 50) <-> v = "low"%string.
Proof.
  unfold select_rates. destruct (String.eqb_spec v "low") as [-> | Hne].
  - split; reflexivity.
  - split; [ discriminate | contradiction ].
Qed.

(** What a successful [EMGReader(...)] has built. *)
Lemma init_reader comports cls lc hc nt v r cls' :
  Reader.init comports cls lc hc nt v = (Ok r, cls') ->
  cls' = set_rates (fst (select_rates v)) (snd (select_rates v)) cls /\
  DataReader.init comports cls' None = Ok (Reader.device r) /\
  Reader.fs r = fst (select_rates v) /\
  compute_window_size (Reader.fs r) = Ok (Reader.window_size r) /\
  Reader.recent_points r =
    {| items := []; maxlen := Z.to_nat (Reader.window_size r) |} /\
  Reader.running r = false.
Proof.
  unfold Reader.init. destruct (select_rates v) as [eeg imu]. cbn [fst snd].
  intros H. inversion H as [[Hr Hc]]. clear H.
  split; [ reflexivity | ].
  bind_ok Hr. rename a into dv.
  pose proof (init_controller _ _ _ _ E) as (_ & Hfs & _).
  cbn in Hfs.
  bind_ok Hr. rename a into ws. bind_ok Hr. rename a into dq.
  inversion Hr; subst r; clear Hr. cbn.
  unfold deque_new in E1. destruct (ws <? 0); [ discriminate | ].
  inversion E1; subst dq.
  rewrite Hfs in E0 |- *. auto 6.
Qed.

End InitFacts.

(** ** The acquisition session *)

Module ReaderFacts.
Import EmgSock DataReader EmgReader InitFacts WindowFacts Examples.

(** The appends of [_read_loop] are those of [push_all]: the filter
    pipeline that runs in between does not touch the window. *)
Lemma process_keeps_window butter iirnotch filtfilt self r self' :
  Reader._process_emg_data butter iirnotch filtfilt self = (r, self') ->
  Reader.recent_points self' = Reader.recent_points self.
Proof.
  unfold Reader._process_emg_data.
  destruct (_ <? _); [ intros H; inversion H; reflexivity | ].
  destruct (process_data _ _ _ _ _) as [r0 f]. intros H. inversion H. reflexivity.
Qed.

Lemma append_values_pushes butter iirnotch filtfilt vals : forall self self',
  Reader.append_values butter iirnotch filtfilt vals self = (Ok tt, self') ->
  Reader.recent_points self' = push_all vals (Reader.recent_points self).
Proof.
  induction vals as [ | x vals IH]; intros self self' H.
  - inversion H. reflexivity.
  - cbn [Reader.append_values] in H.
    set (self1 := Reader.set_recent_points _ self) in H.
    destruct (Reader.window_size self1 <=? deque_len (Reader.recent_points self1)).
    + destruct (Reader._process_emg_data _ _ _ self1) as [r self2] eqn:E.
      apply process_keeps_window in E.
      destruct r; [ | discriminate H ].
      apply IH in H. rewrite H, E. reflexivity.
    + apply IH in H. rewrite H. reflexivity.
Qed.



(** C9: [start_reading] on a reader that is already running, and
    [stop_reading] on one that is not, return at once and leave the reader
    as it is; so a second [start_reading] after a first, or a second
    [stop_reading] after a first, changes nothing. *)
Theorem start_stop_idempotent parse_data :
  (forall self, Reader.running self = true ->
     Reader.start_reading parse_data self = Some (Ok tt, self)) /\
  (forall self, Reader.running self = false ->
     Reader.stop_reading parse_data self = Some (Ok tt, self)) /\
  (forall self r self',
     Reader.start_reading parse_data self = Some (r, self') ->
     Reader.start_reading parse_data self' = Some (Ok tt, self')) /\
  (forall self r self',
     Reader.stop_reading parse_data self = Some (r, self') ->
     Reader.stop_reading parse_data self' = Some (Ok tt, self')).
Proof.
  assert (Hstart : forall self, Reader.running self = true ->
            Reader.start_reading parse_data self = Some (Ok tt, self)).
  { intros self Hrun. unfold Reader.start_reading. now rewrite Hrun. }
  assert (Hstop : forall self, Reader.running self = false ->
            Reader.stop_reading parse_data self = Some (Ok tt, self)).
  { intros self Hrun. unfold Reader.stop_reading. now rewrite Hrun. }
  split; [ exact Hstart | ]. split; [ exact Hstop | ]. split.
  - intros self r self' H. apply Hstart.
    unfold Reader.start_reading in H.
    destruct (Reader.running self) eqn:Hrun.
    + inversion H; subst. exact Hrun.
    + destruct (start_acquisition_data _ _ _) as [[[u | e] dv] | ];
        inversion H; reflexivity.
  - intros self r self' H. apply Hstop.
    unfold Reader.stop_reading in H.
    destruct (Reader.running self) eqn:Hrun; cbn [negb] in H.
    + destruct (Reader.read_thread _) as [[ | ] | ];
        (destruct (stop_acquisition _ _) as [[[u | e] dv] | ];
         [ destruct (close_dev _ _) as [[[u' | e'] dv'] | ] | | ]);
        inversion H; reflexivity.
    + inversion H; subst. exact Hrun.
Qed.

Lemma start_stop_idempotent_witness :
  Reader.stop_reading hoarding_parser low_reader = Some (Ok tt, low_reader) /\
  Reader.start_reading hoarding_parser (Reader.set_running true low_reader) =
    Some (Ok tt, Reader.set_running true low_reader).
Proof.
  destruct (start_stop_idempotent hoarding_parser) as (Hstart & Hstop & _).
  split.
  - apply Hstop. reflexivity.
  - apply Hstart. reflexivity.
Defined.

(** C2 as stated fails: with three samples in a window of fifty,
    [_process_emg_data] returns normally and changes nothing. *)
Lemma short_window_is_not_an_error :
  deque_len (Reader.recent_points short_reader) = 3 /\
  Reader.window_size short_reader = 50 /\
  Reader._process_emg_data unit_butter unit_iirnotch unit_filtfilt short_reader =
    (Ok tt, short_reader).
Proof. repeat split. Qed.

(** C2, amended: on a window shorter than the window size
    [_process_emg_data] returns without an error and without running the
    filter pipeline: the reader, and with it the published filter results,
    is unchanged, whatever the filter routines are. *)
Theorem short_window_returns_silently butter iirnotch filtfilt self :
  deque_len (Reader.recent_points self) < Reader.window_size self ->
  Reader._process_emg_data butter iirnotch filtfilt self = (Ok tt, self).
Proof.
  intros Hshort. unfold Reader._process_emg_data.
  destruct (Z.ltb_spec (deque_len (Reader.recent_points self))
                       (Reader.window_size self)); [ reflexivity | lia ].
Qed.

Lemma short_window_returns_silently_witness :
  Reader._process_emg_data unit_butter unit_iirnotch unit_filtfilt short_reader =
    (Ok tt, short_reader).
Proof.
  apply (short_window_returns_silently unit_butter unit_iirnotch unit_filtfilt
           short_reader).
  vm_compute. reflexivity.
Defined.

End ReaderFacts.

(** ** The filter pipeline *)

Module FilterFacts.
Import EmgReader Examples PipelineExamples.

Lemma correlate_same_length a w :
  List.length (Np.correlate_same a w) = List.length a.
Proof. unfold Np.correlate_same, Np.correlate_same_with. now rewrite length_map, length_seq. Qed.

Lemma convolve_same_length a v c :
  Np.convolve_same a v = Ok c ->
  List.length c = Nat.max (List.length a) (List.length v).
Proof.
  unfold Np.convolve_same, Np.convolve_same_with.
  destruct (Nat.ltb_spec (List.length a) (List.length v)) as [Hlt | Hge].
  - destruct (Nat.eqb (List.length v) 0); [ discriminate | ].
    destruct (Nat.eqb (List.length a) 0); [ discriminate | ].
    intros H. inversion H. rewrite correlate_same_length. lia.
  - destruct (Nat.eqb (List.length a) 0); [ discriminate | ].
    destruct (Nat.eqb (List.length v) 0); [ discriminate | ].
    intros H. inversion H. rewrite correlate_same_length. lia.
Qed.

(** The envelope is as long as the longer of the signal and the kernel. *)
Lemma compute_rms_envelope_length self data env :
  compute_rms_envelope self data = Ok env ->
  List.length env = Nat.max (List.length data) (Z.to_nat (window_size self)).
Proof.
  unfold compute_rms_envelope, Np.ones_div.
  destruct (window_size self <? 0); [ discriminate | ]. cbn [bind].
  destruct (Np.convolve_same _ _) as [c | e] eqn:E; [ | discriminate ].
  cbn [bind]. intros H. inversion H.
  apply convolve_same_length in E.
  unfold Np.sqrt, Np.square, Np.abs in *.
  rewrite !length_map, repeat_length in *. exact E.
Qed.

(** The envelope stage raises only on an empty signal, an empty kernel or
    a negative window size. *)
Lemma compute_rms_envelope_ok self data :
  0 < window_size self -> data <> [] ->
  exists env, compute_rms_envelope self data = Ok env.
Proof.
  intros Hws Hdata. unfold compute_rms_envelope, Np.ones_div.
  destruct (Z.ltb_spec (window_size self) 0); [ lia | ]. cbn [bind].
  unfold Np.convolve_same, Np.convolve_same_with.
  set (x := Np.square (Np.abs data)).
  set (k := repeat _ _).
  assert (Hx : List.length x <> 0%nat).
  { unfold x, Np.square, Np.abs. rewrite !length_map.
    destruct data; [ contradiction | discriminate ]. }
  assert (Hk : List.length k <> 0%nat).
  { unfold k. rewrite repeat_length. lia. }
  destruct (List.length x <? List.length k)%nat.
  - destruct (Nat.eqb_spec (List.length k) 0); [ contradiction | ].
    destruct (Nat.eqb_spec (List.length x) 0); [ contradiction | ].
    eexists. reflexivity.
  - destruct (Nat.eqb_spec (List.length x) 0); [ contradiction | ].
    destruct (Nat.eqb_spec (List.length k) 0); [ contradiction | ].
    eexists. reflexivity.
Qed.

Section Pipeline.

Variable butter : Z -> float -> float -> result coeffs.
Variable iirnotch : float -> float -> result coeffs.
Variable filtfilt : coeffs -> list float -> result (list float).

(** [scipy.signal.filtfilt] returns an array of the shape of its input. *)
Hypothesis filtfilt_shape : forall ba x y,
  filtfilt ba x = Ok y -> List.length y = List.length x.

Lemma bandpass_filter_length self data y :
  bandpass_filter butter filtfilt self data = Ok y ->
  List.length y = List.length data.
Proof.
  unfold bandpass_filter.
  destruct (normalized (lowcut self) (fs self)); [ | discriminate ].
  destruct (normalized (highcut self) (fs self)); [ | discriminate ].
  cbn [bind]. destruct (butter _ _ _); [ | discriminate ].
  cbn [bind]. apply filtfilt_shape.
Qed.

Lemma notch_filter_length self data y :
  notch_filter iirnotch filtfilt self data = Ok y ->
  List.length y = List.length data.
Proof.
  unfold notch_filter.
  destruct (normalized (notch_freq self) (fs self)); [ | discriminate ].
  cbn [bind]. destruct (iirnotch _ _); [ | discriminate ].
  cbn [bind]. apply filtfilt_shape.
Qed.

Lemma process_data_lengths self raw self' :
  window_size self <= Z.of_nat (List.length raw) ->
  process_data butter iirnotch filtfilt self raw = (Ok tt, self') ->
  raw_data self' = raw /\
  List.length (bandpassed_data self') = List.length raw /\
  List.length (notched_data self') = List.length raw /\
  List.length (envelope_data self') = List.length raw.
Proof.
  intros Hws. unfold process_data.
  destruct (bandpass_filter _ _ _ _) as [bp | e] eqn:Ebp; [ | discriminate ].
  cbn [bandpassed_data set_bandpassed].
  destruct (notch_filter _ _ _ _) as [nt | e] eqn:Ent; [ | discriminate ].
  cbn [notched_data set_notched].
  destruct (compute_rms_envelope _ _) as [env | e] eqn:Eenv; [ | discriminate ].
  intros H. inversion H; subst self'; clear H. cbn.
  apply bandpass_filter_length in Ebp.
  apply notch_filter_length in Ent.
  apply compute_rms_envelope_length in Eenv. cbn in Eenv.
  repeat split; lia.
Qed.

(** C3, amended: when [process_data] completes, the raw sequence is the
    window itself, the bandpassed and notched sequences have its length,
    and the envelope has the length of the longer of the window and the
    window size.  The four lengths are therefore equal exactly for the
    windows at least as long as the window size; [process_data] itself
    does not turn a shorter one away. *)
Theorem process_data_lengths_follow_window self raw self' :
  process_data butter iirnotch filtfilt self raw = (Ok tt, self') ->
  raw_data self' = raw /\
  List.length (raw_data self') = List.length raw /\
  List.length (bandpassed_data self') = List.length raw /\
  List.length (notched_data self') = List.length raw /\
  List.length (envelope_data self') =
    Nat.max (List.length raw) (Z.to_nat (window_size self)) /\
  (List.length (envelope_data self') = List.length raw <->
   window_size self <= Z.of_nat (List.length raw)).
Proof.
  unfold process_data.
  destruct (bandpass_filter _ _ _ _) as [bp | e] eqn:Ebp; [ | discriminate ].
  cbn [bandpassed_data set_bandpassed].
  destruct (notch_filter _ _ _ _) as [nt | e] eqn:Ent; [ | discriminate ].
  cbn [notched_data set_notched].
  destruct (compute_rms_envelope _ _) as [env | e] eqn:Eenv; [ | discriminate ].
  intros H. inversion H; subst self'; clear H. cbn.
  apply bandpass_filter_length in Ebp.
  apply notch_filter_length in Ent.
  apply compute_rms_envelope_length in Eenv. cbn in Eenv.
  repeat split; lia.
Qed.

(** The same on the reader: after a recomputation the published filter
    results are as long as the window they were computed from, which is
    the window the reader holds. *)
Lemma recomputation_matches_window self self' :
  Reader.window_size self <= deque_len (Reader.recent_points self) ->
  window_size (Reader.filter self) = Reader.window_size self ->
  Reader._process_emg_data butter iirnotch filtfilt self = (Ok tt, self') ->
  let n := List.length (items (Reader.recent_points self')) in
  List.length (raw_data (Reader.filter self')) = n /\
  List.length (bandpassed_data (Reader.filter self')) = n /\
  List.length (notched_data (Reader.filter self')) = n /\
  List.length (envelope_data (Reader.filter self')) = n.
Proof.
  intros Hfull Hws. unfold Reader._process_emg_data.
  destruct (Z.ltb_spec (deque_len (Reader.recent_points self))
                       (Reader.window_size self)); [ lia | ].
  destruct (process_data _ _ _ _ _) as [r f] eqn:E.
  intros Hret. inversion Hret; subst r self'; clear Hret. cbn.
  apply process_data_lengths in E.
  - destruct E as (-> & ? & ? & ?). auto.
  - rewrite Hws. exact Hfull.
Qed.

(** The pipeline itself never refuses a window for its length: whenever
    the three filter routines succeed, [process_data] does, for a window
    of any positive length and any positive window size. *)
Lemma process_data_needs_no_full_window self raw :
  0 < window_size self -> fs self <> 0 -> raw <> [] ->
  (forall o lo hi, exists ba, butter o lo hi = Ok ba) ->
  (forall w q, exists ba, iirnotch w q = Ok ba) ->
  (forall ba x, exists y, filtfilt ba x = Ok y) ->
  exists self', process_data butter iirnotch filtfilt self raw = (Ok tt, self').
Proof.
  intros Hws Hfs Hraw Hb Hn Hf.
  assert (Hnorm : forall x, exists y, normalized x (fs self) = Ok y).
  { intros x. unfold normalized.
    destruct (Z.eqb_spec (fs self) 0); [ contradiction | eexists; reflexivity ]. }
  assert (Hne : forall x y : list float,
            x <> [] -> List.length y = List.length x -> y <> [])
    by (intros [ | ? ?] [ | ? ?]; cbn; congruence).
  unfold process_data.
  assert (exists bp, bandpass_filter butter filtfilt (set_raw raw self) raw = Ok bp)
    as [bp Ebp].
  { unfold bandpass_filter. cbn [lowcut highcut fs set_raw].
    destruct (Hnorm (lowcut self)) as [lo ->].
    destruct (Hnorm (highcut self)) as [hi ->]. cbn [bind].
    destruct (Hb FILTER_ORDER lo hi) as [ba ->]. cbn [bind]. apply Hf. }
  rewrite Ebp. cbn [bandpassed_data set_bandpassed].
  assert (exists nt, notch_filter iirnotch filtfilt
                       (set_bandpassed bp (set_raw raw self)) bp = Ok nt)
    as [nt Ent].
  { unfold notch_filter. cbn [notch_freq quality_factor fs set_raw set_bandpassed].
    destruct (Hnorm (notch_freq self)) as [w ->]. cbn [bind].
    destruct (Hn w (quality_factor self)) as [ba ->]. cbn [bind]. apply Hf. }
  rewrite Ent. cbn [notched_data set_notched].
  apply bandpass_filter_length in Ebp. apply notch_filter_length in Ent.
  destruct (compute_rms_envelope_ok
              (set_notched nt (set_bandpassed bp (set_raw raw self))) nt)
    as [env ->]; [ exact Hws | eauto | ].
  eexists. reflexivity.
Qed.

End Pipeline.

Lemma unit_filtfilt_shape ba x y :
  unit_filtfilt ba x = Ok y -> List.length y = List.length x.
Proof. intros H. inversion H. reflexivity. Qed.

(** C3 as stated fails: [process_data] completes on 30 samples with a
    window size of 50, and publishes an envelope of 50 entries next to
    three sequences of 30. *)
Lemma envelope_outgrows_short_window :
  fst (process_data unit_butter unit_iirnotch unit_filtfilt low_filter short_window)
    = Ok tt /\
  let self' :=
    snd (process_data unit_butter unit_iirnotch unit_filtfilt low_filter short_window) in
  List.length short_window = 30%nat /\
  List.length (raw_data self') = 30%nat /\
  List.length (bandpassed_data self') = 30%nat /\
  List.length (notched_data self') = 30%nat /\
  List.length (envelope_data self') = 50%nat /\
  List.length (envelope_data self') <> List.length (raw_data self').
Proof.
  vm_compute. repeat split; discriminate.
Qed.

Lemma process_data_lengths_follow_window_witness :
  exists self',
    process_data unit_butter unit_iirnotch unit_filtfilt low_filter whole_window
      = (Ok tt, self') /\
    raw_data self' = whole_window /\
    List.length (raw_data self') = List.length whole_window /\
    List.length (bandpassed_data self') = List.length whole_window /\
    List.length (notched_data self') = List.length whole_window /\
    List.length (envelope_data self') =
      Nat.max (List.length whole_window) (Z.to_nat (window_size low_filter)) /\
    (List.length (envelope_data self') = List.length whole_window <->
     window_size low_filter <= Z.of_nat (List.length whole_window)).
Proof.
  eexists. split; [ vm_compute; reflexivity | ].
  apply (process_data_lengths_follow_window unit_butter unit_iirnotch unit_filtfilt
           unit_filtfilt_shape low_filter whole_window).
  vm_compute. reflexivity.
Defined.

End FilterFacts.

(** ** The envelope stage against its reference definition *)

Module EnvelopeFacts.
Import EmgReader Examples FilterFacts.

Lemma fold_left_map {A B C} (f : A -> B -> A) (g : C -> B) l : forall acc,
  fold_left f (map g l) acc = fold_left (fun a x => f a (g x)) l acc.
Proof. induction l as [ | x l IH]; intros acc; cbn; [ reflexivity | apply IH ]. Qed.

Lemma fold_left_ext_in {A B} (f g : A -> B -> A) l :
  (forall x, In x l -> forall acc, f acc x = g acc x) ->
  forall acc, fold_left f l acc = fold_left g l acc.
Proof.
  induction l as [ | x l IH]; intros H acc; cbn; [ reflexivity | ].
  rewrite H by (left; reflexivity). apply IH.
  intros y Hy. apply H. right. exact Hy.
Qed.

Lemma fold_left_neutral {A B} (f : A -> B -> A) l :
  (forall x, In x l -> forall acc, f acc x = acc) ->
  forall acc, fold_left f l acc = acc.
Proof.
  induction l as [ | x l IH]; intros H acc; cbn; [ reflexivity | ].
  rewrite H by (left; reflexivity). apply IH.
  intros y Hy. apply H. right. exact Hy.
Qed.

(** A fold over [0 .. n-1] whose step does nothing outside [lo .. hi-1]
    is the fold over that interval. *)
Lemma fold_left_interval {A} (f : A -> nat -> A) n lo hi acc :
  (lo <= hi <= n)%nat ->
  (forall j, (j < n)%nat -> (j < lo \/ hi <= j)%nat -> forall a, f a j = a) ->
  fold_left f (seq 0 n) acc = fold_left f (seq lo (hi - lo)) acc.
Proof.
  intros Hb Hout.
  replace n with (lo + ((hi - lo) + (n - hi)))%nat by lia.
  rewrite !seq_app, !fold_left_app. cbn [Nat.add].
  rewrite (fold_left_neutral f (seq 0 lo)).
  - apply fold_left_neutral. intros j Hj. apply in_seq in Hj. apply Hout; lia.
  - intros j Hj. apply in_seq in Hj. apply Hout; lia.
Qed.

Lemma fold_left_seq_shift {A} len : forall (f : A -> nat -> A) d acc,
  fold_left f (seq d len) acc = fold_left (fun a t => f a (t + d)%nat) (seq 0 len) acc.
Proof.
  induction len as [ | len IH]; intros f d acc; [ reflexivity | ].
  cbn [seq fold_left].
  rewrite (IH f (S d)), (IH (fun a t => f a (t + d)%nat) 1%nat).
  cbn [Nat.add]. apply fold_left_ext_in.
  intros t _ a. f_equal. lia.
Qed.

Lemma nth_map_seq {B} (g : nat -> B) n k d :
  (k < n)%nat -> nth k (map g (seq 0 n)) d = g k.
Proof.
  intros Hk.
  rewrite (nth_indep _ d (g 0%nat)) by (rewrite length_map, length_seq; lia).
  rewrite map_nth, seq_nth by lia. reflexivity.
Qed.

(** The routine that adds in index order, as a fold over the indices. *)
Lemma dot_in_order_as_fold xs ys :
  List.length xs = List.length ys ->
  Np.dot_in_order xs ys =
  fold_left
    (fun acc k =>
       PrimFloat.add acc
         (PrimFloat.mul (nth k xs PrimFloat.zero) (nth k ys PrimFloat.zero)))
    (seq 0 (List.length ys)) PrimFloat.zero.
Proof.
  intros Hlen. unfold Np.dot_in_order.
  assert (Hc : combine xs ys =
               map (fun k => (nth k xs PrimFloat.zero, nth k ys PrimFloat.zero))
                   (seq 0 (List.length ys))).
  { apply (nth_ext _ _ (PrimFloat.zero, PrimFloat.zero) (PrimFloat.zero, PrimFloat.zero)).
    - rewrite length_combine, length_map, length_seq. lia.
    - intros k Hk. rewrite length_combine in Hk.
      rewrite combine_nth by exact Hlen.
      rewrite nth_map_seq by lia. reflexivity. }
  rewrite Hc, fold_left_map. reflexivity.
Qed.

(** With the routine that adds in index order the reference convolution
    is the sum over [j] of [x[j] * h[m - j]], the terms taken where both
    indices exist and added in the order of [j]. *)
Lemma conv_at_in_index_order x h m :
  Reference.conv_at Np.dot_in_order x h m = Reference.conv_at_in_order x h m.
Proof.
  unfold Reference.conv_at, Reference.conv_at_in_order.
  set (n1 := List.length x). set (n2 := List.length h).
  set (lo := (m + 1 - n2)%nat). set (hi := Nat.min n1 (m + 1)).
  set (len := (hi - lo)%nat). set (s := (m + 1 - hi)%nat).
  assert (Hxs : List.length (firstn len (skipn lo x)) = len).
  { rewrite length_firstn, length_skipn. fold n1. unfold len, hi. lia. }
  assert (Hys : List.length (firstn len (skipn s h)) = len).
  { rewrite length_firstn, length_skipn. fold n2. unfold len, s, hi, lo. lia. }
  rewrite dot_in_order_as_fold by (rewrite length_rev, Hxs, Hys; reflexivity).
  rewrite length_rev, Hys.
  destruct (Nat.le_gt_cases hi lo) as [Hempty | Hsome].
  - replace len with 0%nat by (unfold len; lia). cbn [seq fold_left].
    symmetry. apply fold_left_neutral. intros j Hj acc. apply in_seq in Hj.
    destruct (Nat.leb_spec j m); cbn [andb]; [ | reflexivity ].
    destruct (Nat.ltb_spec (m - j) n2); [ | reflexivity ].
    unfold hi, lo in Hempty. fold n1 in Hj. lia.
  - rewrite (fold_left_interval _ n1 lo hi).
    2:{ unfold hi in *. lia. }
    2:{ intros j Hj Hout acc.
        destruct (Nat.leb_spec j m); cbn [andb]; [ | reflexivity ].
        destruct (Nat.ltb_spec (m - j) n2); [ | reflexivity ].
        unfold hi, lo in *. lia. }
    fold len. rewrite (fold_left_seq_shift len _ lo).
    apply fold_left_ext_in. intros t Ht acc. apply in_seq in Ht.
    destruct (Nat.leb_spec (t + lo) m) as [_ | ]; [ | unfold len, hi in *; lia ].
    destruct (Nat.ltb_spec (m - (t + lo)) n2) as [_ | ];
      [ | unfold len, hi, lo in *; lia ].
    cbn [andb].
    rewrite nth_firstn, nth_skipn.
    destruct (Nat.ltb_spec t len) as [_ | ]; [ | lia ].
    rewrite rev_nth by (rewrite Hys; lia). rewrite Hys.
    rewrite nth_firstn, nth_skipn.
    destruct (Nat.ltb_spec (len - S t) len) as [_ | ]; [ | lia ].
    replace (lo + t)%nat with (t + lo)%nat by lia.
    replace (s + (len - S t))%nat with (m - (t + lo))%nat
      by (unfold s, len, hi, lo in *; lia).
    reflexivity.
Qed.

(** [compute_rms_envelope] is [compute_rms_envelope_with] at the kernel
    that adds in index order. *)
Lemma compute_rms_envelope_in_order self data :
  compute_rms_envelope self data =
  compute_rms_envelope_with (fun _ => Np.dot_in_order) self data.
Proof. reflexivity. Qed.

Section AnyKernel.

Variable dot : nat -> list float -> list float -> float.

(** What [correlate] hands to the inner-product routine with the reversed
    kernel is, entry by entry, what the centered convolution sums: the
    same stretch of the signal against the same taps in the same order. *)
Lemma correlate_rev_is_convolution a h :
  (1 <= List.length h <= List.length a)%nat ->
  Np.correlate_same_with dot a (rev h) = Reference.conv_centered dot a h.
Proof.
  intros Hlen. unfold Np.correlate_same_with, Reference.conv_centered.
  rewrite length_rev.
  set (n1 := List.length a) in *. set (n2 := List.length h) in *.
  set (nl := (n2 / 2)%nat). set (c := ((n2 - 1) / 2)%nat).
  assert (Hc : (nl + c + 1 = n2)%nat).
  { unfold nl, c.
    pose proof (Nat.div_mod_eq n2 2). pose proof (Nat.div_mod_eq (n2 - 1) 2).
    pose proof (Nat.mod_upper_bound n2 2). pose proof (Nat.mod_upper_bound (n2 - 1) 2).
    lia. }
  replace (n2 - nl - 1)%nat with c by lia.
  apply map_ext_in. intros i Hi. apply in_seq in Hi.
  unfold Reference.conv_at. fold n1 n2. cbv zeta.
  replace (i + c + 1 - n2)%nat with (i - nl)%nat by lia.
  set (hi := Nat.min n1 (i + c + 1)).
  set (n := (hi - (i - nl))%nat).
  f_equal.
  rewrite skipn_rev, firstn_rev, length_firstn. fold n2.
  f_equal.
  rewrite firstn_skipn_comm.
  replace (Nat.min (n2 - (nl - i)) n2) with (n2 - (nl - i))%nat by lia.
  replace (i + c + 1 - hi + n)%nat with (n2 - (nl - i))%nat by (unfold n, hi; lia).
  f_equal. unfold n, hi. lia.
Qed.

Lemma reference_length window signal :
  List.length (Reference.rms_envelope dot window signal) = List.length signal.
Proof.
  unfold Reference.rms_envelope, Reference.conv_centered.
  now rewrite !length_map, length_seq.
Qed.

(** C8, amended: for every signal at least as long as the window size
    (itself at least 1), and whatever routine numpy sums the products of
    an output entry with, [compute_rms_envelope] returns the reference
    envelope computed with the same sums: the element-wise square root of the centered
    convolution of the rectified, squared signal with the uniform
    moving-average kernel of window-size taps; it has the length of the
    signal.  [compute_rms_envelope], which the pipeline runs, is the
    instance at the routine that adds in index order. *)
Theorem rms_envelope_is_reference self data :
  1 <= window_size self <= Z.of_nat (List.length data) ->
  compute_rms_envelope_with dot self data =
    Ok (Reference.rms_envelope dot (Z.to_nat (window_size self)) data) /\
  List.length (Reference.rms_envelope dot (Z.to_nat (window_size self)) data) =
    List.length data /\
  compute_rms_envelope self data =
    compute_rms_envelope_with (fun _ => Np.dot_in_order) self data.
Proof.
  intros Hws. split; [ | split; [ apply reference_length | reflexivity ] ].
  unfold compute_rms_envelope_with, Np.ones_div.
  destruct (Z.ltb_spec (window_size self) 0); [ lia | ]. cbn [bind].
  set (k := repeat _ _).
  assert (Hk : k = Reference.uniform_kernel (Z.to_nat (window_size self))).
  { unfold k, Reference.uniform_kernel. now rewrite Z2Nat.id by lia. }
  assert (Hklen : List.length k = Z.to_nat (window_size self))
    by (unfold k; apply repeat_length).
  assert (Hx : Np.square (Np.abs data) =
               map (fun v => PrimFloat.mul (PrimFloat.abs v) (PrimFloat.abs v)) data)
    by (unfold Np.square, Np.abs; apply map_map).
  assert (Hxlen : List.length (Np.square (Np.abs data)) = List.length data)
    by (rewrite Hx; apply length_map).
  unfold Np.convolve_same_with. rewrite Hxlen, Hklen.
  destruct (Nat.ltb_spec (List.length data) (Z.to_nat (window_size self)));
    [ lia | ].
  rewrite Hxlen, Hklen.
  destruct (Nat.eqb_spec (List.length data) 0); [ lia | ].
  destruct (Nat.eqb_spec (Z.to_nat (window_size self)) 0); [ lia | ].
  cbn [bind]. rewrite correlate_rev_is_convolution by lia.
  unfold Reference.rms_envelope, Np.sqrt. rewrite Hx, Hk. reflexivity.
Qed.

End AnyKernel.

(** C8 as stated fails: with a window of three samples the envelope of a
    one-sample signal has three entries. *)
Lemma envelope_longer_than_short_signal :
  compute_rms_envelope small_filter [3%float] =
    Ok (map PrimFloat.sqrt [3; 3; 3]%float) /\
  List.length (map PrimFloat.sqrt [3; 3; 3]%float) <> List.length [3%float].
Proof.
  split; [ vm_compute; reflexivity | cbn; discriminate ].
Qed.

Lemma rms_envelope_is_reference_witness :
  compute_rms_envelope_with (fun _ => Np.dot_in_order) small_filter full_window =
    Ok (Reference.rms_envelope (fun _ => Np.dot_in_order) 3 full_window) /\
  List.length (Reference.rms_envelope (fun _ => Np.dot_in_order) 3 full_window)
    = 4%nat /\
  compute_rms_envelope small_filter full_window =
    compute_rms_envelope_with (fun _ => Np.dot_in_order) small_filter full_window.
Proof.
  apply (rms_envelope_is_reference (fun _ => Np.dot_in_order) small_filter full_window).
  vm_compute. split; discriminate.
Defined.

End EnvelopeFacts.

(** ** The device controller *)

Module DataReaderFacts.
Import EmgSock DataReader Examples FaultExamples.

Lemma Dev_eqb_eq a b : Dev_eqb a b = true <-> a = b.
Proof. destruct a, b; cbn; split; intros H; try reflexivity; discriminate. Qed.

Lemma Dev_eqb_neq a b : a <> b -> Dev_eqb a b = false.
Proof.
  intros H. destruct (Dev_eqb a b) eqn:E; [ | reflexivity ].
  apply Dev_eqb_eq in E. contradiction.
Qed.

Lemma drain_empty q : drain q = [].
Proof. induction q as [ | x q IH]; [ reflexivity | exact IH ]. Qed.

(** After the loop of [__recv_data] nothing is left on the queue, the
    marker put there included, and nothing in the parser. *)
Lemma recv_exit_leaves_nothing st :
  save_data (recv_exit st) = [] /\ parser_buffer (recv_exit st) = [].
Proof.
  unfold recv_exit. cbn [status clear_buffer queue_put set_save_data
                         set_parser_buffer save_data].
  rewrite drain_empty.
  destruct (negb _); [ | split; reflexivity ].
  destruct (stop_recv _); [ split; reflexivity | ].
  destruct (Dev_eqb _ _); split; reflexivity.
Qed.

Lemma run_top_keeps_queue st :
  save_data (run_top st) = save_data st /\
  parser_buffer (run_top st) = parser_buffer st.
Proof.
  unfold run_top.
  destruct (status st); try (split; reflexivity).
  destruct (start_data _); split; reflexivity.
Qed.

(** Whenever a poll of the controller thread takes it out of the loop of
    [__recv_data], the queue and the parser are both empty afterwards. *)
Lemma leaving_signal_leaves_nothing parse_data st :
  pc st = RecvLoop ->
  pc (thread_advance parse_data st) <> RecvLoop \/
  status (thread_advance parse_data st) <> SIGNAL ->
  save_data (thread_advance parse_data st) = [] /\
  parser_buffer (thread_advance parse_data st) = [].
Proof.
  intros Hpc. unfold thread_advance. rewrite Hpc.
  destruct (Dev_eqb (status st) SIGNAL) eqn:Hs.
  - destruct (recv_iter parse_data st) as [st' broke] eqn:Hit.
    destruct broke.
    + intros _. destruct (run_top_keeps_queue (recv_exit st')) as [-> ->].
      apply recv_exit_leaves_nothing.
    + intros Hleft. exfalso.
      apply Dev_eqb_eq in Hs.
      unfold recv_iter in Hit.
      destruct (recv_socket 100 (dev st)) as [[data d] | e];
        [ | inversion Hit ].
      destruct data as [ | b data].
      * inversion Hit; subst st'. cbn in Hleft. intuition congruence.
      * cbn [parser_buffer set_dev] in Hit.
        destruct (parse_data _ _) as [[ret buf] | e]; [ | inversion Hit ].
        destruct ret as [ | fr ret].
        -- inversion Hit; subst st'. cbn in Hleft. intuition congruence.
        -- cbn [with_q set_parser_buffer set_dev] in Hit.
           destruct (with_q st); inversion Hit; subst st'; cbn in Hleft;
             intuition congruence.
  - intros _. destruct (run_top_keeps_queue (recv_exit st)) as [-> ->].
    apply recv_exit_leaves_nothing.
Qed.

(** C5 at a stop request during acquisition: the controller leaves the
    Signal state and the parser's buffer is cleared, but the queue is
    empty afterwards: the end-of-stream marker is not on it. *)
Theorem no_sentinel_left_after_signal :
  status acquiring_device = SIGNAL /\
  pc acquiring_device = RecvLoop /\
  save_data acquiring_device = [Some [sample_frame]] /\
  parser_buffer acquiring_device = sample_packet /\
  let after := step hoarding_parser acquiring_device (StatusWrite IDLE_START) in
  status after = IDLE /\
  parser_buffer after = [] /\
  save_data after = [] /\
  ~ In None (save_data after).
Proof.
  repeat split; try (vm_compute; reflexivity).
  vm_compute. intros H. exact H.
Qed.

(** Between two polls a live controller thread never shows the status
    TERMINATE: [run] assigns it last, as the thread ends. *)
Lemma run_top_alive_not_terminated st :
  is_alive (run_top st) = true -> status (run_top st) <> TERMINATE.
Proof.
  unfold run_top.
  destruct (status st); cbn; try discriminate.
  destruct (start_data (dev st)); cbn; discriminate.
Qed.

Lemma thread_advance_alive_not_terminated parse_data st :
  (is_alive st = true -> status st <> TERMINATE) ->
  is_alive (thread_advance parse_data st) = true ->
  status (thread_advance parse_data st) <> TERMINATE.
Proof.
  intros Hcons. unfold thread_advance.
  destruct (pc st) eqn:Hpc.
  - exact Hcons.
  - destruct (Dev_eqb (status st) IDLE); [ exact Hcons | ].
    apply run_top_alive_not_terminated.
  - destruct (Dev_eqb (status st) SIGNAL) eqn:Hs;
      [ | apply run_top_alive_not_terminated ].
    apply Dev_eqb_eq in Hs.
    destruct (recv_iter parse_data st) as [st' broke] eqn:Hit.
    destruct broke; [ apply run_top_alive_not_terminated | ].
    assert (Hst : status st' = SIGNAL); [ | rewrite Hst; discriminate ].
    unfold recv_iter in Hit.
    destruct (recv_socket 100 (dev st)) as [[data d] | e]; [ | inversion Hit ].
    destruct data as [ | b data]; [ inversion Hit; exact Hs | ].
    cbn [parser_buffer set_dev] in Hit.
    destruct (parse_data _ _) as [[ret buf] | e]; [ | inversion Hit ].
    destruct ret as [ | fr ret]; [ inversion Hit; exact Hs | ].
    cbn [with_q set_parser_buffer set_dev] in Hit.
    destruct (with_q st); inversion Hit; exact Hs.
  - exact Hcons.
Qed.

(** A controller whose thread is alive is closed by [close_dev], which
    leaves the recorded fault as it is. *)
Lemma close_dev_alive parse_data st :
  is_alive st = true -> status st <> TERMINATE ->
  exists st',
    close_dev parse_data st = Some (Ok tt, st') /\
    status st' = TERMINATE /\ pc st' = Finished /\
    closed (dev st') = true /\
    socket_flag st' = socket_flag st.
Proof.
  intros Halive Hst. unfold close_dev.
  rewrite (Dev_eqb_neq _ _ Hst). cbn [negb].
  destruct st as [s q buf a d wq flag p]. cbn in Halive, Hst.
  destruct p; try discriminate Halive.
  - cbn. eexists. split; [ reflexivity | ]. cbn. auto.
  - cbn. eexists. split; [ reflexivity | ]. cbn. auto.
Qed.

Lemma close_dev_never_raises parse_data st r st' :
  close_dev parse_data st = Some (r, st') -> r = Ok tt.
Proof.
  unfold close_dev.
  destruct (negb _).
  - destruct (Dev_eqb _ TERMINATE); [ | discriminate ].
    destruct (is_alive _); [ destruct (join _ _) | ];
      intros H; inversion H; reflexivity.
  - destruct (is_alive _); [ destruct (join _ _) | ];
      intros H; inversion H; reflexivity.
Qed.

(** With a fault recorded the status check raises it, after closing a
    controller that is still alive. *)
Lemma check_raises_recorded_fault parse_data st reason :
  socket_flag st = Some reason ->
  (is_alive st = true -> status st <> TERMINATE) ->
  exists st',
    __check_dev_status parse_data st = Some (Raise (Exception reason), st') /\
    (is_alive st = true ->
       status st' = TERMINATE /\ pc st' = Finished /\ closed (dev st') = true) /\
    (is_alive st = false -> st' = st).
Proof.
  intros Hflag Hcons. unfold __check_dev_status. rewrite Hflag.
  destruct (is_alive st) eqn:Halive.
  - destruct (close_dev_alive parse_data st Halive (Hcons eq_refl))
      as (st' & -> & Hs & Hp & Hc & Hf).
    exists st'. rewrite Hf, Hflag. repeat split; auto. discriminate.
  - exists st. rewrite Hflag. repeat split; try discriminate. 
Qed.

(** C6 as stated fails for [close]: on a controller with a recorded fault
    [close_dev] returns normally. *)
Lemma close_dev_ignores_recorded_fault :
  socket_flag faulted_device =
    Some "Data transmission error: SerialException"%string /\
  close_dev hoarding_parser faulted_device = Some (Ok tt, faulted_device).
Proof. split; vm_compute; reflexivity. Qed.

(** C6, amended: with a fault recorded, [start_acquisition_data] and
    [stop_acquisition] raise the recorded reason and leave the controller
    closed if its thread was alive, untouched otherwise: the requested
    transition is not attempted.  [close_dev] makes no such check and
    never raises: on a controller whose thread is alive, or has ended
    with the status TERMINATE, it returns normally, leaving the
    controller terminated with its thread ended and the recorded reason
    in place; only on a controller whose thread is not running while the
    status is not TERMINATE it never returns. *)
Theorem recorded_fault_fails_start_and_stop parse_data wq st reason :
  socket_flag st = Some reason ->
  (is_alive st = true -> status st <> TERMINATE) ->
  (exists st',
     start_acquisition_data parse_data wq st = Some (Raise (Exception reason), st') /\
     stop_acquisition parse_data st = Some (Raise (Exception reason), st') /\
     (is_alive st = true ->
        status st' = TERMINATE /\ pc st' = Finished /\ closed (dev st') = true) /\
     (is_alive st = false -> st' = st)) /\
  (forall r st', close_dev parse_data st = Some (r, st') -> r = Ok tt) /\
  ((is_alive st = false -> status st = TERMINATE) ->
   exists st',
     close_dev parse_data st = Some (Ok tt, st') /\
     status st' = TERMINATE /\ is_alive st' = false /\
     socket_flag st' = Some reason /\
     (is_alive st = true -> pc st' = Finished /\ closed (dev st') = true) /\
     (is_alive st = false -> st' = st)) /\
  (is_alive st = false -> status st <> TERMINATE ->
   close_dev parse_data st = None).
Proof.
  intros Hflag Hcons. split; [ | split; [ | split ] ].
  - destruct (check_raises_recorded_fault parse_data st reason Hflag Hcons)
      as (st' & Hcheck & Ha & Hd).
    exists st'. unfold start_acquisition_data, stop_acquisition, checked.
    rewrite Hcheck. auto.
  - intros r st'. apply close_dev_never_raises.
  - intros Hdead. destruct (is_alive st) eqn:Halive.
    + destruct (close_dev_alive parse_data st Halive (Hcons eq_refl))
        as (st' & Hclose & Hs & Hp & Hc & Hf).
      exists st'. rewrite Hf. unfold is_alive. rewrite Hp.
      repeat split; auto; congruence.
    + exists st. unfold close_dev.
      rewrite (Hdead eq_refl).
      change (Dev_eqb TERMINATE TERMINATE) with true. cbn [negb].
      rewrite Halive.
      repeat split; auto; congruence.
  - intros Hdead Hst. unfold close_dev.
    rewrite (Dev_eqb_neq _ _ Hst). cbn [negb].
    unfold is_alive in Hdead. unfold thread_advance. cbn [pc set_status].
    destruct (pc st); try discriminate Hdead; reflexivity.
Qed.

Lemma recorded_fault_fails_start_and_stop_witness :
  ((exists st',
      start_acquisition_data hoarding_parser true faulting_device =
        Some (Raise (Exception "Data transmission error: SerialException"), st') /\
      stop_acquisition hoarding_parser faulting_device =
        Some (Raise (Exception "Data transmission error: SerialException"), st') /\
      (is_alive faulting_device = true ->
         status st' = TERMINATE /\ pc st' = Finished /\ closed (dev st') = true) /\
      (is_alive faulting_device = false -> st' = faulting_device)) /\
   (forall r st', close_dev hoarding_parser faulting_device = Some (r, st') -> r = Ok tt) /\
   ((is_alive faulting_device = false -> status faulting_device = TERMINATE) ->
    exists st',
      close_dev hoarding_parser faulting_device = Some (Ok tt, st') /\
      status st' = TERMINATE /\ is_alive st' = false /\
      socket_flag st' = Some "Data transmission error: SerialException"%string /\
      (is_alive faulting_device = true ->
         pc st' = Finished /\ closed (dev st') = true) /\
      (is_alive faulting_device = false -> st' = faulting_device)) /\
   (is_alive faulting_device = false -> status faulting_device <> TERMINATE ->
    close_dev hoarding_parser faulting_device = None)) /\
  is_alive faulting_device = true /\
  status faulting_device = TERMINATE_START /\
  ((exists st',
      start_acquisition_data hoarding_parser true faulted_device =
        Some (Raise (Exception "Data transmission error: SerialException"), st') /\
      stop_acquisition hoarding_parser faulted_device =
        Some (Raise (Exception "Data transmission error: SerialException"), st') /\
      (is_alive faulted_device = true ->
         status st' = TERMINATE /\ pc st' = Finished /\ closed (dev st') = true) /\
      (is_alive faulted_device = false -> st' = faulted_device)) /\
   (forall r st', close_dev hoarding_parser faulted_device = Some (r, st') -> r = Ok tt) /\
   ((is_alive faulted_device = false -> status faulted_device = TERMINATE) ->
    exists st',
      close_dev hoarding_parser faulted_device = Some (Ok tt, st') /\
      status st' = TERMINATE /\ is_alive st' = false /\
      socket_flag st' = Some "Data transmission error: SerialException"%string /\
      (is_alive faulted_device = true ->
         pc st' = Finished /\ closed (dev st') = true) /\
      (is_alive faulted_device = false -> st' = faulted_device)) /\
   (is_alive faulted_device = false -> status faulted_device <> TERMINATE ->
    close_dev hoarding_parser faulted_device = None)) /\
  is_alive faulted_device = false /\
  status faulted_device = TERMINATE.
Proof.
  split; [ | split; [ | split; [ | split; [ | split ] ] ] ].
  - apply (recorded_fault_fails_start_and_stop hoarding_parser true faulting_device
             "Data transmission error: SerialException").
    + vm_compute. reflexivity.
    + vm_compute. discriminate.
  - vm_compute. reflexivity.
  - vm_compute. reflexivity.
  - apply (recorded_fault_fails_start_and_stop hoarding_parser true faulted_device
             "Data transmission error: SerialException").
    + vm_compute. reflexivity.
    + vm_compute. discriminate.
  - vm_compute. reflexivity.
  - vm_compute. reflexivity.
Defined.

End DataReaderFacts.

(** ** More on the packet parser *)

Module ParserExtras.
Import EmgParser PyFacts EmgParserFacts Codec Examples.

Lemma parse_packet_ok packet :
  (15 <= List.length packet)%nat ->
  parse_packet packet =
    Ok {| emg := map (channel_value packet) (seq 0 5); imu := skipn 15 packet |}.
Proof.
  intros Hlen.
  assert (Hch : forall i, (i < 5)%nat ->
            decode_channel (firstn 15 packet) i = Ok (channel_value packet i)).
  { intros i Hi. rewrite decode_channel_field.
    - rewrite slice_firstn by lia. unfold channel_value, channel_field.
      replace (3 * i)%nat with (i * 3)%nat by lia. reflexivity.
    - rewrite slice_firstn by lia. rewrite slice_length; lia. }
  unfold parse_packet.
  destruct (Nat.ltb_spec (List.length packet) 15) as [ | _]; [ lia | ].
  cbn [seq decode_channels]. rewrite !Hch by lia. reflexivity.
Qed.

(** X1: [parse_packet] succeeds exactly on buffers of at least 15 bytes;
    the only exception it ever raises is the [ValueError] for a short
    packet: the sign extension cannot overflow. *)
Theorem parse_packet_fails_only_when_short packet :
  (is_ok (parse_packet packet) = true <-> (15 <= List.length packet)%nat) /\
  (forall e, parse_packet packet = Raise e ->
     e = ValueError "Incomplete packet: less than 15 bytes" /\
     (List.length packet < 15)%nat).
Proof.
  destruct (Nat.lt_ge_cases (List.length packet) 15) as [Hlt | Hge].
  - assert (Hr : parse_packet packet =
                 Raise (ValueError "Incomplete packet: less than 15 bytes")).
    { unfold parse_packet.
      destruct (Nat.ltb_spec (List.length packet) 15); [ reflexivity | lia ]. }
    rewrite Hr. split.
    + split; [ discriminate | lia ].
    + intros e He. inversion He. auto.
  - rewrite parse_packet_ok by exact Hge. split.
    + split; [ lia | reflexivity ].
    + discriminate.
Qed.

Lemma twos_complement_encode v :
  - 2 ^ 23 <= v < 2 ^ 23 ->
  twos_complement24 (int_from_bytes_le (encode_channel v)) = v.
Proof.
  intros Hv. unfold encode_channel.
  pose proof (Z.mod_pos_bound v (2 ^ 24) eq_refl) as Hm.
  rewrite int_from_le_digits by (change (256 ^ Z.of_nat 3) with (2 ^ 24); exact Hm).
  unfold twos_complement24.
  destruct (Z.ltb_spec v 0) as [Hneg | Hpos].
  - assert (Hu : v mod 2 ^ 24 = v + 2 ^ 24).
    { symmetry. apply (Z.mod_unique v (2 ^ 24) (-1)); lia. }
    rewrite Hu. destruct (Z.ltb_spec (v + 2 ^ 24) (2 ^ 23)); lia.
  - rewrite Z.mod_small by lia.
    destruct (Z.ltb_spec v (2 ^ 23)); lia.
Qed.

(** X2: encoding five signed 24-bit values as little-endian three-byte
    fields and parsing the packet gives each value back, scaled by
    0.0240405, whatever follows as IMU payload, which is returned as is. *)
Theorem parse_packet_decodes_encoded (vs : list Z) (imu_bytes : list byte) :
  List.length vs = 5%nat ->
  Forall (fun v => - 2 ^ 23 <= v < 2 ^ 23) vs ->
  parse_packet (encode_channels vs ++ imu_bytes) =
    Ok {| emg := map (fun v => PrimFloat.mul (float_of_int v) SCALE) vs;
          imu := imu_bytes |}.
Proof.
  intros Hlen Hrange.
  destruct vs as [ | v0 [ | v1 [ | v2 [ | v3 [ | v4 [ | ? ?]]]]]]; try discriminate.
  repeat match goal with
         | H : Forall _ (_ :: _) |- _ => inversion H; subst; clear H
         end.
  rewrite parse_packet_ok
    by (unfold encode_channels; cbn [flat_map encode_channel le_digits app List.length]; lia).
  set (packet := encode_channels [v0; v1; v2; v3; v4] ++ imu_bytes).
  f_equal. cbn [seq map]. unfold channel_value.
  change (channel_field packet 0) with (encode_channel v0).
  change (channel_field packet 1) with (encode_channel v1).
  change (channel_field packet 2) with (encode_channel v2).
  change (channel_field packet 3) with (encode_channel v3).
  change (channel_field packet 4) with (encode_channel v4).
  rewrite !twos_complement_encode by assumption. reflexivity.
Qed.

Lemma parse_packet_decodes_encoded_witness :
  parse_packet (encode_channels [1; -1; -8388608; 8388607; 10000] ++ [xaa; xbb]) =
    Ok {| emg := map (fun v => PrimFloat.mul (float_of_int v) SCALE)
                     [1; -1; -8388608; 8388607; 10000];
          imu := [xaa; xbb] |}.
Proof.
  apply (parse_packet_decodes_encoded [1; -1; -8388608; 8388607; 10000] [xaa; xbb]).
  - reflexivity.
  - repeat constructor; cbn; lia.
Defined.

(** X3: the EMG values depend on the first 15 bytes only: whatever IMU
    payload follows them, the five values are the same and the payload
    comes back untouched. *)
Theorem parse_packet_ignores_imu (emg_bytes imu_bytes : list byte) :
  List.length emg_bytes = 15%nat ->
  exists vals,
    parse_packet emg_bytes = Ok {| emg := vals; imu := [] |} /\
    parse_packet (emg_bytes ++ imu_bytes) = Ok {| emg := vals; imu := imu_bytes |}.
Proof.
  intros Hlen. exists (map (channel_value emg_bytes) (seq 0 5)).
  rewrite !parse_packet_ok by (rewrite ?length_app; lia). split.
  - rewrite skipn_all2 by lia. reflexivity.
  - rewrite skipn_app, skipn_all2 by lia.
    replace (15 - List.length emg_bytes)%nat with 0%nat by lia. cbn [skipn app].
    f_equal. f_equal. apply map_ext_in. intros i Hi. apply in_seq in Hi.
    unfold channel_value, channel_field, slice.
    rewrite skipn_app, firstn_app, length_skipn.
    replace (3 * i - List.length emg_bytes)%nat with 0%nat by lia.
    replace (3 * i + 3 - 3 * i - (List.length emg_bytes - 3 * i))%nat with 0%nat by lia.
    cbn [skipn firstn]. rewrite app_nil_r. reflexivity.
Qed.

Lemma parse_packet_ignores_imu_witness :
  exists vals,
    parse_packet (firstn 15 sample_packet) = Ok {| emg := vals; imu := [] |} /\
    parse_packet (firstn 15 sample_packet ++ [xaa; xbb]) =
      Ok {| emg := vals; imu := [xaa; xbb] |}.
Proof.
  apply (parse_packet_ignores_imu (firstn 15 sample_packet) [xaa; xbb]).
  reflexivity.
Defined.

End ParserExtras.

(** ** More on the transport *)

Module SockExtras.
Import EmgSock Ports Examples.

Lemma is_prefix_spec p : forall s,
  is_prefix p s = true <-> exists post, s = (p ++ post)%string.
Proof.
  induction p as [ | a p IH]; intros s; cbn.
  - split; [ intros _; exists s; reflexivity | reflexivity ].
  - destruct s as [ | b s].
    + split; [ discriminate | intros [post H]; discriminate H ].
    + rewrite andb_true_iff, IH. split.
      * intros [Hab [post ->]]. apply Ascii.eqb_eq in Hab. subst b.
        exists post. reflexivity.
      * intros [post H]. inversion H; subst. split.
        -- apply Ascii.eqb_refl.
        -- exists post. reflexivity.
Qed.

(** [contains] is the substring test of Python's [in]. *)
Lemma contains_spec p : forall s,
  contains p s = true <-> exists pre post, s = (pre ++ p ++ post)%string.
Proof.
  induction s as [ | b s IH].
  - cbn. rewrite orb_false_r, is_prefix_spec. split.
    + intros [post H]. exists EmptyString, post. exact H.
    + intros [pre [post H]]. destruct pre; [ | discriminate H ].
      exists post. exact H.
  - cbn [contains]. rewrite orb_true_iff, is_prefix_spec, IH. split.
    + intros [[post H] | [pre [post H]]].
      * exists EmptyString, post. exact H.
      * exists (String b pre), post. cbn. now rewrite H.
    + intros [pre [post H]]. destruct pre as [ | c pre].
      * left. exists post. exact H.
      * right. cbn in H. inversion H. exists pre, post. reflexivity.
Qed.

Lemma probe_filter devices : forall ret,
  probe devices ret = ret ++ map device (filter usable devices).
Proof.
  induction devices as [ | dv rest IH]; intros ret; cbn [probe filter map].
  - now rewrite app_nil_r.
  - unfold usable at 1.
    destruct (manufacturer dv) as [m | ]; [ | apply IH ].
    destruct (contains "FTDI" m).
    + destruct (hardware dv); [ | apply IH ].
      rewrite IH. cbn [map]. now rewrite <- app_assoc.
    + destruct (hardware dv); apply IH.
Qed.

(** X4: [_find_devs] returns, in listing order, exactly the ports whose
    manufacturer mentions FTDI and that can be opened; ports without a
    manufacturer string are skipped; it raises "EMG device not found"
    exactly when there is no such port. *)
Theorem find_devs_returns_usable_ports comports :
  match _find_devs comports with
  | Ok ret => ret = map device (filter usable comports) /\ ret <> []
  | Raise e => e = Exception "EMG device not found" /\
               filter usable comports = []
  end.
Proof.
  unfold _find_devs. rewrite probe_filter. cbn [app].
  destruct (filter usable comports) as [ | dv l]; cbn.
  - split; reflexivity.
  - split; [ reflexivity | discriminate ].
Qed.

Lemma connect_socket_result d :
  broken d = false -> closed d = false ->
  connect_socket d =
    match reply d [x01] with
    | [] => Raise (Exception "connection failed, no data available.")
    | _ :: _ =>
        Ok {| port_name := port_name d;
              out_log := out_log d ++ [x01; x02];
              in_buf := reply d [x01] ++ reply d [x02];
              reply := reply d; broken := false; closed := false |}
    end.
Proof.
  intros Hb Hc.
  unfold connect_socket, start_data, serial_read_all, serial_write,
    serial_in_waiting, stop_recv, serial_write.
  rewrite Hb, Hc. cbn. rewrite ?Hb, ?Hc. cbn. rewrite ?Hb, ?Hc. cbn.
  destruct (reply d [x01]) as [ | b l]; cbn; [ reflexivity | ].
  rewrite ?Hb, ?Hc. cbn. rewrite <- ?app_assoc. reflexivity.
Qed.

(** X5: on a working link the connect handshake writes the start byte,
    succeeds exactly when the instrument answers it with at least one
    byte, and then writes the stop byte; input that was already waiting
    before the handshake is discarded and does not count. *)
Theorem connect_socket_handshake d :
  broken d = false -> closed d = false ->
  (reply d [x01] = [] ->
   connect_socket d = Raise (Exception "connection failed, no data available.")) /\
  (reply d [x01] <> [] ->
   connect_socket d =
     Ok {| port_name := port_name d;
           out_log := out_log d ++ [x01; x02];
           in_buf := reply d [x01] ++ reply d [x02];
           reply := reply d; broken := false; closed := false |}).
Proof.
  intros Hb Hc. rewrite (connect_socket_result d Hb Hc).
  destruct (reply d [x01]); split; intros H; try reflexivity; congruence.
Qed.

Lemma connect_socket_handshake_witness :
  connect_socket usb0 =
    Ok {| port_name := "/dev/ttyUSB0";
          out_log := [x01; x02];
          in_buf := sample_packet;
          reply := instrument; broken := false; closed := false |}.
Proof.
  apply (connect_socket_handshake usb0); [ reflexivity | reflexivity | ].
  cbn. discriminate.
Defined.

End SockExtras.

(** ** More on the device controller *)

Module ControllerExtras.
Import EmgSock Ports DataReader DataReaderFacts InitFacts SockExtras Examples.

Lemma sock_set_frequency_ok rate d d' :
  EmgSock.set_frequency rate d = Ok d' ->
  (rate = 250 \/ rate = 500) ->
  out_log d' = out_log d ++ rate_command rate /\
  broken d' = false /\ closed d' = false /\
  reply d' = reply d /\ port_name d' = port_name d.
Proof.
  unfold EmgSock.set_frequency, serial_flush, serial_write, serial_read_all.
  intros H Hr.
  destruct (broken d || closed d) eqn:Hbc; cbn in H; [ discriminate | ].
  apply orb_false_elim in Hbc. destruct Hbc as [Hb Hc].
  destruct Hr as [-> | ->]; cbn in H; rewrite Hb, Hc in H; cbn in H;
    rewrite ?Hb, ?Hc in H; cbn in H.
  - inversion H; subst d'. cbn. auto.
  - destruct (in_buf d ++ reply d [x05]); cbn in H; [ discriminate | ].
    inversion H; subst d'. cbn. auto.
Qed.

(** X6: [iFocus.set_frequency] refuses during acquisition, refuses any
    rate other than 250 and 500, and when it succeeds the IMU rate is a
    fifth of the EEG rate and the one command byte of that rate (0x04 or
    0x05) has been written; the status is untouched. *)
Theorem set_frequency_validates rate st :
  let r := match rate with Some r => r | None => fs_eeg (args st) end in
  (status st = SIGNAL ->
   DataReader.set_frequency rate st =
     Raise (Exception "Data acquisition already started, please stop first.")) /\
  (status st <> SIGNAL -> r <> 250 -> r <> 500 ->
   DataReader.set_frequency rate st = Raise (ValueError "fs_eeg should be 250 or 500")) /\
  (forall st', DataReader.set_frequency rate st = Ok st' ->
     status st <> SIGNAL /\ (r = 250 \/ r = 500) /\
     fs_eeg (args st') = r /\ fs_imu (args st') * 5 = r /\
     out_log (dev st') = out_log (dev st) ++ rate_command r /\
     status st' = status st).
Proof.
  cbn zeta. split; [ | split ].
  - intros Hs. unfold DataReader.set_frequency. rewrite Hs. reflexivity.
  - intros Hs H250 H500. unfold DataReader.set_frequency.
    rewrite (Dev_eqb_neq _ _ Hs).
    destruct (Z.eqb_spec (match rate with Some r => r | None => fs_eeg (args st) end) 250);
      [ contradiction | ].
    destruct (Z.eqb_spec (match rate with Some r => r | None => fs_eeg (args st) end) 500);
      [ contradiction | reflexivity ].
  - intros st' H. unfold DataReader.set_frequency in H.
    destruct (Dev_eqb (status st) SIGNAL) eqn:Hs; [ discriminate | ].
    assert (Hns : status st <> SIGNAL).
    { intros E. apply Dev_eqb_eq in E. congruence. }
    set (r := match rate with Some r => r | None => fs_eeg (args st) end) in *.
    assert (Hr : r = 250 \/ r = 500).
    { destruct (Z.eqb_spec r 250); [ auto | ].
      destruct (Z.eqb_spec r 500); [ auto | discriminate H ]. }
    assert (Hnb : negb ((r =? 250) || (r =? 500)) = false)
      by (destruct Hr as [-> | ->]; reflexivity).
    rewrite Hnb in H. cbn [args dev set_args] in H.
    destruct (EmgSock.set_frequency r (dev st)) as [d' | e] eqn:E; [ | discriminate H ].
    inversion H; subst st'. cbn.
    apply sock_set_frequency_ok in E; [ | exact Hr ].
    destruct E as (Hlog & _).
    repeat split; auto. destruct Hr as [-> | ->]; reflexivity.
Qed.

Lemma set_frequency_validates_witness :
  DataReader.set_frequency (Some 300) idle_device =
    Raise (ValueError "fs_eeg should be 250 or 500") /\
  DataReader.set_frequency (Some 500) acquiring_device =
    Raise (Exception "Data acquisition already started, please stop first.").
Proof.
  split.
  - apply (set_frequency_validates (Some 300) idle_device); discriminate.
  - apply (set_frequency_validates (Some 500) acquiring_device). reflexivity.
Defined.

(** X7: a controller that [iFocus(port)] returns is connected to the
    port it names (the first usable one when none was given), idle, with
    its thread alive, no fault recorded and nothing queued, and exactly
    three commands have gone out: the rate byte, then start, then stop. *)
Theorem init_leaves_idle_after_handshake comports cls port dv :
  DataReader.init comports cls port = Ok dv ->
  exists p d0,
    match port with
    | Some q => p = q
    | None => exists rest, _find_devs comports = Ok (p :: rest)
    end /\
    open_port comports p = Ok d0 /\
    name (args dv) = Some p /\
    out_log (dev dv) = out_log d0 ++ rate_command (fs_eeg cls) ++ [x01; x02] /\
    status dv = IDLE /\ pc dv = IdleWait /\ socket_flag dv = None /\
    with_q dv = true /\ save_data dv = [] /\ parser_buffer dv = [].
Proof.
  unfold DataReader.init. intros H.
  bind_ok H. rename a into p. bind_ok H. rename a into d0. bind_ok H.
  rename a into st1.
  exists p, d0.
  assert (Hport : match port with
                  | Some q => p = q
                  | None => exists rest, _find_devs comports = Ok (p :: rest)
                  end).
  { destruct port as [q | ]; [ inversion E; reflexivity | ].
    destruct (_find_devs comports) as [[ | p' rest] | e]; cbn in E; inversion E.
    subst. exists rest. reflexivity. }
  split; [ exact Hport | ]. split; [ exact E0 | ].
  unfold DataReader.set_frequency in E1. cbn in E1.
  assert (Hr : fs_eeg cls = 250 \/ fs_eeg cls = 500).
  { destruct (Z.eqb_spec (fs_eeg cls) 250); [ auto | ].
    destruct (Z.eqb_spec (fs_eeg cls) 500); [ auto | discriminate E1 ]. }
  assert (Hnb : negb ((fs_eeg cls =? 250) || (fs_eeg cls =? 500)) = false)
    by (destruct Hr as [-> | ->]; reflexivity).
  rewrite Hnb in E1.
  destruct (EmgSock.set_frequency (fs_eeg cls) d0) as [d1 | e] eqn:Ef;
    [ | discriminate E1 ].
  cbn in E1. inversion E1; subst st1; clear E1. cbn in H.
  apply sock_set_frequency_ok in Ef; [ | exact Hr ].
  destruct Ef as (Hlog & Hb & Hc & _).
  rewrite (connect_socket_result d1 Hb Hc) in H.
  destruct (reply d1 [x01]); [ discriminate H | ].
  inversion H; subst dv; clear H. cbn.
  rewrite Hlog, <- app_assoc. repeat split; reflexivity.
Qed.

Lemma init_leaves_idle_after_handshake_witness :
  exists p d0,
    (exists rest, _find_devs comports = Ok (p :: rest)) /\
    open_port comports p = Ok d0 /\
    name (args idle_device) = Some p /\
    out_log (dev idle_device) = out_log d0 ++ rate_command 250 ++ [x01; x02] /\
    status idle_device = IDLE /\ pc idle_device = IdleWait /\
    socket_flag idle_device = None /\
    with_q idle_device = true /\ save_data idle_device = [] /\
    parser_buffer idle_device = [].
Proof.
  apply (init_leaves_idle_after_handshake comports (set_rates 250 50 dev_args)
           None idle_device).
  vm_compute. reflexivity.
Defined.

End ControllerExtras.

(** ** The controller as a state machine *)

Module StateMachineExtras.
Import EmgSock Ports DataReader DataReaderFacts Examples MoreExamples.

(** Case analysis on a controller: its fields, the thread's position, the
    status, and whether the port still works. *)
Ltac controller_cases st :=
  let s := fresh "s" in let q := fresh "q" in let buf := fresh "buf" in
  let a := fresh "a" in let d := fresh "d" in let wq := fresh "wq" in
  let flag := fresh "flag" in let p := fresh "p" in
  destruct st as [s q buf a d wq flag p];
  let pn := fresh "pn" in let ol := fresh "ol" in let ib := fresh "ib" in
  let rp := fresh "rp" in let br := fresh "br" in let cl := fresh "cl" in
  destruct d as [pn ol ib rp br cl];
  cbn in *.

Lemma returns_with {A} (o : blocking A) (r : result A) (P : iFocus -> Prop) :
  match o with
  | Some (r', st') => r' = r /\ P st'
  | None => False
  end ->
  exists st', o = Some (r, st') /\ P st'.
Proof.
  destruct o as [[r' st'] | ]; [ | contradiction ].
  intros [-> HP]. exists st'. auto.
Qed.


(** X8: on an idle controller without a recorded fault
    [stop_acquisition] returns at once and changes nothing. *)
Theorem stop_from_idle_is_noop parse_data st :
  status st = IDLE -> pc st = IdleWait -> socket_flag st = None ->
  stop_acquisition parse_data st = Some (Ok tt, st).
Proof.
  intros Hs Hp Hf. controller_cases st. subst. reflexivity.
Qed.

Lemma stop_from_idle_is_noop_witness :
  stop_acquisition hoarding_parser idle_device = Some (Ok tt, idle_device).
Proof.
  apply (stop_from_idle_is_noop hoarding_parser idle_device); reflexivity.
Defined.

(** X9: from idle, [start_acquisition_data] on a working link discards
    the input that was waiting, writes the start byte 0x01 and returns
    with the controller in SIGNAL; on a broken link it returns with the
    controller terminated, raising the recorded initialization failure. *)
Theorem start_from_idle parse_data wq st :
  status st = IDLE -> pc st = IdleWait -> socket_flag st = None ->
  closed (dev st) = false ->
  (broken (dev st) = false ->
   exists st',
     start_acquisition_data parse_data wq st = Some (Ok tt, st') /\
     status st' = SIGNAL /\ pc st' = RecvLoop /\ with_q st' = wq /\
     out_log (dev st') = out_log (dev st) ++ [x01] /\
     in_buf (dev st') = reply (dev st) [x01] /\
     save_data st' = save_data st) /\
  (broken (dev st) = true ->
   exists st',
     start_acquisition_data parse_data wq st =
       Some (Raise (Exception "SIGNAL mode initialization failed: SerialException"), st') /\
     status st' = TERMINATE /\ pc st' = Finished /\
     closed (dev st') = true /\ out_log (dev st') = out_log (dev st)).
Proof.
  intros Hs Hp Hf Hc. controller_cases st. subst.
  split; intros ->; apply returns_with; vm_compute; auto 8.
Qed.

Lemma start_from_idle_witness :
  exists st',
    start_acquisition_data hoarding_parser true idle_device = Some (Ok tt, st') /\
    status st' = SIGNAL /\ pc st' = RecvLoop /\ with_q st' = true /\
    out_log (dev st') = out_log (dev idle_device) ++ [x01] /\
    in_buf (dev st') = reply (dev idle_device) [x01] /\
    save_data st' = save_data idle_device.
Proof.
  apply (start_from_idle hoarding_parser true idle_device); reflexivity.
Defined.

(** X10: from SIGNAL, [stop_acquisition] on a working link empties the
    parser and the queue, writes the stop byte 0x02 and returns with the
    controller idle; when the stop byte cannot be written it returns with
    the controller terminated, raising "Connection lost.". *)
Theorem stop_from_signal parse_data st :
  status st = SIGNAL -> pc st = RecvLoop -> socket_flag st = None ->
  closed (dev st) = false ->
  (broken (dev st) = false ->
   exists st',
     stop_acquisition parse_data st = Some (Ok tt, st') /\
     status st' = IDLE /\ pc st' = IdleWait /\
     save_data st' = [] /\ parser_buffer st' = [] /\
     out_log (dev st') = out_log (dev st) ++ [x02]) /\
  (broken (dev st) = true ->
   exists st',
     stop_acquisition parse_data st = Some (Raise (Exception "Connection lost."), st') /\
     status st' = TERMINATE /\ pc st' = Finished /\
     closed (dev st') = true /\ save_data st' = []).
Proof.
  intros Hs Hp Hf Hc. controller_cases st. subst.
  split; intros ->; apply returns_with; vm_compute;
    change (drain (q ++ [None]) = []) with (drain (q ++ [None]) = @nil queue_item);
    rewrite ?drain_empty; auto 8.
Qed.

Lemma stop_from_signal_witness :
  exists st',
    stop_acquisition hoarding_parser acquiring_device = Some (Ok tt, st') /\
    status st' = IDLE /\ pc st' = IdleWait /\
    save_data st' = [] /\ parser_buffer st' = [] /\
    out_log (dev st') = out_log (dev acquiring_device) ++ [x02].
Proof.
  apply (stop_from_signal hoarding_parser acquiring_device); reflexivity.
Defined.



(** X12: a controller that has terminated without a recorded fault is
    unusable: [start_acquisition_data] and [stop_acquisition] wait forever
    (nothing is left to change the status), while [close_dev] returns at
    once and changes nothing. *)
Theorem terminated_controller_is_unusable parse_data wq st :
  status st = TERMINATE -> is_alive st = false -> socket_flag st = None ->
  start_acquisition_data parse_data wq st = None /\
  stop_acquisition parse_data st = None /\
  close_dev parse_data st = Some (Ok tt, st).
Proof.
  intros Hs Ha Hf. controller_cases st. subst.
  destruct p; try discriminate Ha; repeat split.
Qed.

Lemma terminated_controller_is_unusable_witness :
  start_acquisition_data hoarding_parser true closed_device = None /\
  stop_acquisition hoarding_parser closed_device = None /\
  close_dev hoarding_parser closed_device = Some (Ok tt, closed_device).
Proof.
  apply (terminated_controller_is_unusable hoarding_parser true closed_device);
    vm_compute; reflexivity.
Defined.

Lemma run_top_finished st :
  pc (run_top st) = Finished ->
  status (run_top st) = TERMINATE /\ closed (dev (run_top st)) = true.
Proof.
  unfold run_top.
  destruct (status st); cbn; try discriminate; try (intros _; split; reflexivity).
  destruct (start_data (dev st)); cbn; [ discriminate | ].
  intros _. split; reflexivity.
Qed.

Lemma recv_iter_continues parse_data st st' :
  recv_iter parse_data st = (st', false) -> pc st' = pc st.
Proof.
  unfold recv_iter.
  destruct (recv_socket 100 (dev st)) as [[data d] | e]; [ | discriminate ].
  destruct data as [ | b data]; [ intros H; inversion H; reflexivity | ].
  cbn [parser_buffer set_dev].
  destruct (parse_data _ _) as [[ret buf] | e]; [ | discriminate ].
  destruct ret as [ | fr ret]; [ intros H; inversion H; reflexivity | ].
  cbn [with_q set_parser_buffer set_dev].
  destruct (with_q st); intros H; inversion H; reflexivity.
Qed.

Lemma thread_advance_finishing parse_data st :
  pc st <> Finished ->
  pc (thread_advance parse_data st) = Finished ->
  status (thread_advance parse_data st) = TERMINATE /\
  closed (dev (thread_advance parse_data st)) = true.
Proof.
  intros Hrun. unfold thread_advance.
  destruct (pc st) eqn:Hpc.
  - rewrite Hpc. discriminate.
  - destruct (Dev_eqb (status st) IDLE); [ rewrite Hpc; discriminate | ].
    apply run_top_finished.
  - destruct (Dev_eqb (status st) SIGNAL); [ | apply run_top_finished ].
    destruct (recv_iter parse_data st) as [st' broke] eqn:Hit.
    destruct broke; [ apply run_top_finished | ].
    apply recv_iter_continues in Hit. rewrite Hit, Hpc. discriminate.
  - contradiction.
Qed.

(** X13: whichever way the controller thread ends (a close request, a
    transfer or parse failure, a failed start, an unknown status), it ends
    with the port closed and the status TERMINATE: no way out of [run]
    skips [close_socket] or the final status.  And whatever happens
    around the controller afterwards, a thread that has ended has its
    port closed. *)
Theorem thread_end_closes_port parse_data st :
  (pc st <> Finished ->
   pc (thread_advance parse_data st) = Finished ->
   status (thread_advance parse_data st) = TERMINATE /\
   closed (dev (thread_advance parse_data st)) = true) /\
  (forall evs,
     (pc st = Finished -> closed (dev st) = true) ->
     pc (run parse_data st evs) = Finished ->
     closed (dev (run parse_data st evs)) = true).
Proof.
  split; [ apply thread_advance_finishing | ].
  intros evs. revert st.
  induction evs as [ | ev evs IH]; intros st Hinv; [ exact Hinv | ].
  change (run parse_data st (ev :: evs))
    with (run parse_data (step parse_data st ev) evs).
  apply IH. unfold step.
  assert (Hpc : pc (apply_event ev st) = pc st) by (destruct ev; reflexivity).
  assert (Hcl : closed (dev (apply_event ev st)) = closed (dev st))
    by (destruct ev; reflexivity).
  destruct (pc st) eqn:Hst.
  - intros H. apply thread_advance_finishing; [ rewrite Hpc; discriminate | exact H ].
  - intros H. apply thread_advance_finishing; [ rewrite Hpc; discriminate | exact H ].
  - intros H. apply thread_advance_finishing; [ rewrite Hpc; discriminate | exact H ].
  - intros _. unfold thread_advance. rewrite Hpc. rewrite Hcl. apply Hinv. reflexivity.
Qed.

Lemma thread_end_closes_port_witness :
  (pc (thread_advance failing_parser cut_off_device) = Finished /\
   status (thread_advance failing_parser cut_off_device) = TERMINATE /\
   closed (dev (thread_advance failing_parser cut_off_device)) = true) /\
  (pc (run hoarding_parser acquiring_device
         [Arrive sample_packet; StatusWrite TERMINATE_START; Arrive [x01]]) = Finished /\
   closed (dev (run hoarding_parser acquiring_device
                  [Arrive sample_packet; StatusWrite TERMINATE_START; Arrive [x01]]))
     = true).
Proof.
  split.
  - split; [ vm_compute; reflexivity | ].
    destruct (thread_end_closes_port failing_parser cut_off_device) as [Hend _].
    apply Hend; [ vm_compute; discriminate | vm_compute; reflexivity ].
  - split; [ vm_compute; reflexivity | ].
    destruct (thread_end_closes_port hoarding_parser acquiring_device) as [_ Hrun].
    apply Hrun; [ vm_compute; discriminate | vm_compute; reflexivity ].
Defined.

(** X14: a transfer or parse failure during acquisition ends it: the
    reason is recorded as "Data transmission error: ...", the thread
    leaves the loop and closes the port, queue and parser are left empty,
    the thread ends, and the next [get_data] raises the recorded reason
    instead of returning frames.  On a broken link nothing more is
    written; after a parser exception on a working link the stop byte
    0x02 is written as the port is closed. *)
Theorem fault_during_acquisition_terminates parse_data st :
  status st = SIGNAL -> pc st = RecvLoop -> socket_flag st = None ->
  (broken (dev st) = true ->
   let st' := thread_advance parse_data st in
   status st' = TERMINATE /\ pc st' = Finished /\
   socket_flag st' = Some "Data transmission error: SerialException"%string /\
   closed (dev st') = true /\ out_log (dev st') = out_log (dev st) /\
   save_data st' = [] /\ parser_buffer st' = [] /\
   get_data parse_data st' =
     Some (Raise (Exception "Data transmission error: SerialException"), st')) /\
  (forall e,
     broken (dev st) = false -> closed (dev st) = false -> in_buf (dev st) <> [] ->
     parse_data (parser_buffer st) (firstn 100 (in_buf (dev st))) = Raise e ->
     let st' := thread_advance parse_data st in
     status st' = TERMINATE /\ pc st' = Finished /\
     socket_flag st' = Some ("Data transmission error: " ++ exn_str e)%string /\
     closed (dev st') = true /\ out_log (dev st') = out_log (dev st) ++ [x02] /\
     save_data st' = [] /\ parser_buffer st' = [] /\
     get_data parse_data st' =
       Some (Raise (Exception ("Data transmission error: " ++ exn_str e)), st')).
Proof.
  intros Hs Hp Hf.
  destruct st as [s q buf a d wq flag p]. destruct d as [pn ol ib rp br cl].
  cbn [status pc socket_flag dev broken closed in_buf parser_buffer out_log] in *.
  subst. split.
  - intros ->. vm_compute.
    change (drain (q ++ [None])) with (drain (q ++ [@None (list frame)])).
    rewrite !drain_empty. repeat split.
  - intros e -> -> Hib Hparse.
    destruct ib as [ | b ib]; [ contradiction | ].
    assert (Hit : recv_iter parse_data
                    {| status := SIGNAL; save_data := q; parser_buffer := buf;
                       args := a;
                       dev := {| port_name := pn; out_log := ol; in_buf := b :: ib;
                                 reply := rp; broken := false; closed := false |};
                       with_q := wq; socket_flag := None; pc := RecvLoop |} =
                  (recv_fault e
                     {| status := SIGNAL; save_data := q; parser_buffer := buf;
                        args := a;
                        dev := {| port_name := pn; out_log := ol;
                                  in_buf := skipn 100 (b :: ib);
                                  reply := rp; broken := false; closed := false |};
                        with_q := wq; socket_flag := None; pc := RecvLoop |}, true)).
    { unfold recv_iter, recv_socket, serial_read.
      cbn [dev broken closed orb in_buf set_in_buf set_dev parser_buffer
           port_name out_log reply].
      change (firstn 100 (b :: ib)) with (b :: firstn 99 ib) in Hparse |- *.
      cbn iota beta. rewrite Hparse. reflexivity. }
    cbv zeta. unfold thread_advance. cbn [pc status Dev_eqb Dev_value Z.eqb Pos.eqb].
    rewrite Hit. unfold recv_fault.
    generalize (skipn 100 (b :: ib)). generalize (exn_str e). intros m rest.
    vm_compute.
    change (drain (q ++ [None])) with (drain (q ++ [@None (list frame)])).
    rewrite !drain_empty. repeat split.
Qed.

Lemma fault_during_acquisition_terminates_witness :
  (let st' := thread_advance failing_parser cut_off_device in
   status st' = TERMINATE /\ pc st' = Finished /\
   socket_flag st' = Some "Data transmission error: SerialException"%string /\
   closed (dev st') = true /\ out_log (dev st') = out_log (dev cut_off_device) /\
   save_data st' = [] /\ parser_buffer st' = [] /\
   get_data failing_parser st' =
     Some (Raise (Exception "Data transmission error: SerialException"), st')) /\
  (let st' := thread_advance failing_parser
                (apply_event (Arrive [x01]) acquiring_device) in
   status st' = TERMINATE /\ pc st' = Finished /\
   socket_flag st' = Some "Data transmission error: bad frame"%string /\
   closed (dev st') = true /\
   out_log (dev st') = out_log (dev acquiring_device) ++ [x02] /\
   save_data st' = [] /\ parser_buffer st' = [] /\
   get_data failing_parser st' =
     Some (Raise (Exception "Data transmission error: bad frame"), st')).
Proof.
  split.
  - destruct (fault_during_acquisition_terminates failing_parser cut_off_device
                eq_refl eq_refl eq_refl) as [Hlink _].
    apply Hlink. reflexivity.
  - destruct (fault_during_acquisition_terminates failing_parser
                (apply_event (Arrive [x01]) acquiring_device)
                eq_refl eq_refl eq_refl) as [_ Hparse].
    apply (Hparse (ValueError "bad frame")); try reflexivity.
    cbn. discriminate.
Defined.

(** X15: a read that returns no bytes is not an error: the acquisition
    loop goes round again and the controller is exactly as before. *)
Theorem empty_read_changes_nothing parse_data st :
  status st = SIGNAL -> pc st = RecvLoop ->
  broken (dev st) = false -> closed (dev st) = false -> in_buf (dev st) = [] ->
  thread_advance parse_data st = st.
Proof.
  intros Hs Hp Hb Hc Hib. controller_cases st. subst. reflexivity.
Qed.

Lemma empty_read_changes_nothing_witness :
  thread_advance failing_parser quiet_device = quiet_device.
Proof.
  apply (empty_read_changes_nothing failing_parser quiet_device); reflexivity.
Defined.

Lemma extend_all_batches batches : forall d,
  extend_all (Some d) (map Some batches) = (Ok (Some (d ++ List.concat batches)), []).
Proof.
  induction batches as [ | b batches IH]; intros d; cbn.
  - now rewrite app_nil_r.
  - rewrite IH, <- app_assoc. reflexivity.
Qed.

(** X16: without a recorded fault, [get_data] returns every queued batch
    of frames concatenated in arrival order and leaves the queue empty; on
    an empty queue it returns the empty list. *)
Theorem get_data_drains_in_order parse_data st (batches : list (list frame)) :
  socket_flag st = None -> with_q st = true ->
  save_data st = map Some batches ->
  get_data parse_data st = Some (Ok (Some (List.concat batches)), set_save_data [] st).
Proof.
  intros Hf Hw Hq. controller_cases st. subst.
  destruct batches as [ | b batches]; cbn; [ reflexivity | ].
  rewrite extend_all_batches. reflexivity.
Qed.

Lemma get_data_drains_in_order_witness :
  get_data hoarding_parser stocked_device =
    Some (Ok (Some [sample_frame; sample_frame; sample_frame]),
          set_save_data [] stocked_device).
Proof.
  apply (get_data_drains_in_order hoarding_parser stocked_device
           [[sample_frame]; [sample_frame; sample_frame]]); reflexivity.
Defined.

(** X17: [get_data] cannot digest the end-of-stream marker unless it is
    alone on the queue: alone it is returned as [None]; when anything
    follows it the call raises [AttributeError] and what follows stays
    queued; when it follows a batch the call raises [TypeError], and the
    batch and the marker are gone from the queue. *)
Theorem get_data_chokes_on_marker parse_data st :
  socket_flag st = None -> with_q st = true ->
  (save_data st = [None] ->
   get_data parse_data st = Some (Ok None, set_save_data [] st)) /\
  (forall x q, save_data st = None :: x :: q ->
   get_data parse_data st =
     Some (Raise (AttributeError "'NoneType' object has no attribute 'extend'"),
           set_save_data (x :: q) st)) /\
  (forall b q, save_data st = Some b :: None :: q ->
   get_data parse_data st =
     Some (Raise (TypeError "'NoneType' object is not iterable"),
           set_save_data q st)).
Proof.
  intros Hf Hw. controller_cases st. subst.
  split; [ | split ]; intros; subst; reflexivity.
Qed.

Lemma get_data_chokes_on_marker_witness :
  get_data hoarding_parser
    (set_save_data [None; Some [sample_frame]] idle_device) =
  Some (Raise (AttributeError "'NoneType' object has no attribute 'extend'"),
        set_save_data [Some [sample_frame]]
          (set_save_data [None; Some [sample_frame]] idle_device)).
Proof.
  destruct (get_data_chokes_on_marker hoarding_parser
              (set_save_data [None; Some [sample_frame]] idle_device)
              eq_refl eq_refl) as (_ & Hfirst & _).
  apply (Hfirst (Some [sample_frame]) []). reflexivity.
Defined.

End StateMachineExtras.

(** ** More on the acquisition session *)

Module SessionExtras.
Import EmgSock Ports DataReader DataReaderFacts EmgReader InitFacts WindowFacts.
Import ReaderFacts FilterFacts SockExtras StateMachineExtras Snapshot.
Import Examples MoreExamples SessionExamples FullWindow.

Lemma push_all_app xs ys d : push_all (xs ++ ys) d = push_all ys (push_all xs d).
Proof. unfold push_all. apply fold_left_app. Qed.

Lemma push_all_length xs d :
  (List.length (items d) <= maxlen d)%nat ->
  List.length (items (push_all xs d)) =
    Nat.min (maxlen d) (List.length (items d) + List.length xs).
Proof.
  intros Hle. rewrite push_all_items by exact Hle.
  rewrite length_skipn, length_app. lia.
Qed.

Lemma push_all_within_capacity xs d :
  (List.length (items d) + List.length xs <= maxlen d)%nat ->
  items (push_all xs d) = items d ++ xs.
Proof.
  intros Hroom. rewrite push_all_items by lia.
  rewrite length_app.
  replace (List.length (items d) + List.length xs - maxlen d)%nat with 0%nat by lia.
  reflexivity.
Qed.

(** X18: the window never holds more than its capacity: after any run of
    appends its length is the smaller of the capacity and the number of
    samples it was given, and as long as that number stays within the
    capacity nothing is dropped. *)
Theorem window_length_is_bounded xs d :
  (List.length (items d) <= maxlen d)%nat ->
  List.length (items (push_all xs d)) =
    Nat.min (maxlen d) (List.length (items d) + List.length xs) /\
  ((List.length (items d) + List.length xs <= maxlen d)%nat ->
   items (push_all xs d) = items d ++ xs).
Proof.
  intros Hle. split; [ apply push_all_length; exact Hle | ].
  apply push_all_within_capacity.
Qed.

Lemma window_length_is_bounded_witness :
  List.length (items (push_all [1; 2; 3; 4; 5]%float {| items := []; maxlen := 3 |}))
    = Nat.min 3 (0 + 5) /\
  ((0 + 5 <= 3)%nat ->
   items (push_all [1; 2; 3; 4; 5]%float {| items := []; maxlen := 3 |}) =
     [] ++ [1; 2; 3; 4; 5]%float).
Proof.
  apply (window_length_is_bounded [1; 2; 3; 4; 5]%float {| items := []; maxlen := 3 |}).
  cbn. lia.
Defined.

Lemma deque_append_len x d : deque_len (deque_append x d) <= deque_len d + 1.
Proof.
  unfold deque_len, deque_append. cbn [items].
  assert (Hl : List.length (items d ++ [x]) = S (List.length (items d)))
    by (rewrite length_app; cbn; lia).
  destruct (Nat.ltb (maxlen d) (List.length (items d ++ [x]))).
  - destruct (items d ++ [x]); cbn in *; lia.
  - lia.
Qed.

Lemma append_values_below_window butter iirnotch filtfilt vals : forall self,
  deque_len (Reader.recent_points self) + Z.of_nat (List.length vals)
    < Reader.window_size self ->
  Reader.append_values butter iirnotch filtfilt vals self =
    (Ok tt, Reader.set_recent_points (push_all vals (Reader.recent_points self)) self).
Proof.
  induction vals as [ | x vals IH]; intros self Hlt.
  - destruct self. reflexivity.
  - cbn [Reader.append_values].
    set (self1 := Reader.set_recent_points _ self).
    assert (Hlen : deque_len (Reader.recent_points self1)
                   <= deque_len (Reader.recent_points self) + 1).
    { unfold self1. destruct self. cbn [Reader.recent_points Reader.set_recent_points].
      apply deque_append_len. }
    assert (Hws : Reader.window_size self1 = Reader.window_size self)
      by (unfold self1; destruct self; reflexivity).
    cbn [List.length] in Hlt.
    destruct (Z.leb_spec (Reader.window_size self1)
                         (deque_len (Reader.recent_points self1))) as [Hfull | _].
    + lia.
    + rewrite IH by lia.
      unfold self1. destruct self. reflexivity.
Qed.

(** X19: until the window first fills, the read loop only collects: no
    filter routine runs, no error can arise, and the snapshot shows the
    raw samples received so far beside filter results that are still the
    old ones (empty on a fresh reader). *)
Theorem no_filtering_before_window_fills butter iirnotch filtfilt vals self :
  Z.of_nat (maxlen (Reader.recent_points self)) = Reader.window_size self ->
  deque_len (Reader.recent_points self) + Z.of_nat (List.length vals)
    < Reader.window_size self ->
  exists self',
    Reader.append_values butter iirnotch filtfilt vals self = (Ok tt, self') /\
    Reader.filter self' = Reader.filter self /\
    raw (last_emg self') = raw (last_emg self) ++ vals /\
    bandpass (last_emg self') = bandpass (last_emg self) /\
    notch (last_emg self') = notch (last_emg self) /\
    envelope (last_emg self') = envelope (last_emg self).
Proof.
  intros Hcap Hlt. eexists. split.
  - apply append_values_below_window. exact Hlt.
  - destruct self as [dv port f lc hc ws flt dq spp run th]. cbn in *.
    repeat split.
    apply push_all_within_capacity; unfold deque_len in Hlt; lia.
Qed.

Lemma no_filtering_before_window_fills_witness :
  exists self',
    Reader.append_values unit_butter unit_iirnotch unit_filtfilt
      [1; 2; 3]%float low_reader = (Ok tt, self') /\
    Reader.filter self' = Reader.filter low_reader /\
    raw (last_emg self') = raw (last_emg low_reader) ++ [1; 2; 3]%float /\
    bandpass (last_emg self') = bandpass (last_emg low_reader) /\
    notch (last_emg self') = notch (last_emg low_reader) /\
    envelope (last_emg self') = envelope (last_emg low_reader).
Proof.
  apply (no_filtering_before_window_fills unit_butter unit_iirnotch unit_filtfilt
           [1; 2; 3]%float low_reader); reflexivity.
Defined.

Lemma first_of_each_heads samples xs :
  Reader.first_of_each samples = Ok xs ->
  xs = map (hd PrimFloat.zero) samples.
Proof.
  revert xs. induction samples as [ | smp samples IH]; intros xs H.
  - inversion H. reflexivity.
  - cbn [Reader.first_of_each] in H. destruct smp as [ | x smp]; [ discriminate | ].
    destruct (Reader.first_of_each samples) as [ys | e]; [ | discriminate ].
    cbn in H. inversion H. cbn. f_equal. apply IH. reflexivity.
Qed.

Lemma process_keeps_packet_size butter iirnotch filtfilt self r self' :
  Reader._process_emg_data butter iirnotch filtfilt self = (r, self') ->
  Reader.samples_per_packet self' = Reader.samples_per_packet self.
Proof.
  unfold Reader._process_emg_data.
  destruct (_ <? _); [ intros H; inversion H; reflexivity | ].
  destruct (process_data _ _ _ _ _) as [r0 f]. intros H. inversion H.
  destruct self. reflexivity.
Qed.

Lemma append_values_keeps_packet_size butter iirnotch filtfilt vals :
  forall self r self',
  Reader.append_values butter iirnotch filtfilt vals self = (r, self') ->
  Reader.samples_per_packet self' = Reader.samples_per_packet self.
Proof.
  induction vals as [ | x vals IH]; intros self r self' H.
  - inversion H. reflexivity.
  - cbn [Reader.append_values] in H.
    set (self1 := Reader.set_recent_points _ self) in H.
    assert (H1 : Reader.samples_per_packet self1 = Reader.samples_per_packet self)
      by (unfold self1; destruct self; reflexivity).
    destruct (Reader.window_size self1 <=? deque_len (Reader.recent_points self1)).
    + destruct (Reader._process_emg_data _ _ _ self1) as [r2 self2] eqn:E.
      apply process_keeps_packet_size in E.
      destruct r2; [ apply IH in H | inversion H; subst ]; congruence.
    + apply IH in H. congruence.
Qed.

(** X20: when the frames of a poll are processed without an error, the
    window has received, frame after frame and in order, the first value
    of each of the first five samples of every frame; a sixth entry (the
    IMU triple) is never read and empty frames are skipped. *)
Theorem process_frames_collects_eeg butter iirnotch filtfilt frames :
  forall self self',
  Reader.process_frames butter iirnotch filtfilt frames self = (Ok tt, self') ->
  Reader.recent_points self' =
    push_all
      (flat_map
         (fun fr => map (hd PrimFloat.zero)
                        (firstn (Reader.samples_per_packet self) fr))
         frames)
      (Reader.recent_points self).
Proof.
  induction frames as [ | fr frames IH]; intros self self' H.
  - inversion H. reflexivity.
  - cbn [Reader.process_frames] in H. cbn [flat_map].
    destruct fr as [ | smp fr].
    + apply IH in H. rewrite H. destruct (Reader.samples_per_packet self); reflexivity.
    + destruct (Reader.first_of_each _) as [vals | e] eqn:Ev; [ | discriminate ].
      apply first_of_each_heads in Ev.
      destruct (Reader.append_values _ _ _ vals self) as [r self1] eqn:Ea.
      destruct r as [[] | e]; [ | discriminate ].
      pose proof (append_values_keeps_packet_size _ _ _ _ _ _ _ Ea) as Hspp.
      apply append_values_pushes in Ea.
      apply IH in H. rewrite H, Ea, Hspp, push_all_app, <- Ev. reflexivity.
Qed.

Lemma process_frames_collects_eeg_witness :
  Reader.recent_points
    (snd (Reader.process_frames unit_butter unit_iirnotch unit_filtfilt
            [sample_frame; []; sample_frame] low_reader)) =
  push_all [1; 2; 3; 4; 5; 1; 2; 3; 4; 5]%float (Reader.recent_points low_reader).
Proof.
  apply (process_frames_collects_eeg unit_butter unit_iirnotch unit_filtfilt
           [sample_frame; []; sample_frame] low_reader).
  vm_compute. reflexivity.
Defined.

Lemma stop_acquisition_ok parse_data st dv :
  stop_acquisition parse_data st = Some (Ok tt, dv) ->
  status dv = IDLE /\ pc dv = IdleWait /\ socket_flag dv = None.
Proof.
  intros H.
  assert (G : match stop_acquisition parse_data st with
              | Some (Ok _, dv) =>
                  status dv = IDLE /\ pc dv = IdleWait /\ socket_flag dv = None
              | _ => True
              end).
  { destruct st as [s q buf a d wq flag p]. destruct d as [pn ol ib rp br cl].
    destruct p, s, flag, br, cl; vm_compute; auto. }
  rewrite H in G. exact G.
Qed.

Lemma dead_controller_waits parse_data wq st :
  status st = TERMINATE -> pc st = Finished -> socket_flag st = None ->
  start_acquisition_data parse_data wq st = None.
Proof.
  intros Hs Hp Hf. controller_cases st. subst. reflexivity.
Qed.

(** X21: a reader cannot be restarted.  After a [stop_reading] that
    succeeds on a running reader, the window is empty while the filter
    results stay as they were, the controller has terminated, and a
    further [start_reading] waits forever for a state the ended thread
    will never set. *)
Theorem reader_cannot_be_restarted parse_data self self' :
  Reader.running self = true ->
  Reader.stop_reading parse_data self = Some (Ok tt, self') ->
  Reader.running self' = false /\
  raw (last_emg self') = [] /\
  Reader.filter self' = Reader.filter self /\
  status (Reader.device self') = TERMINATE /\
  is_alive (Reader.device self') = false /\
  Reader.start_reading parse_data self' = None.
Proof.
  intros Hrun H. unfold Reader.stop_reading in H. rewrite Hrun in H. cbn [negb] in H.
  set (self1 := match Reader.read_thread (Reader.set_running false self) with
                | Some true => _ | _ => _ end) in H.
  assert (Hdev : Reader.device self1 = Reader.device self)
    by (unfold self1; destruct self as [? ? ? ? ? ? ? ? ? ? [[ | ] | ]]; reflexivity).
  assert (Hflt : Reader.filter self1 = Reader.filter self)
    by (unfold self1; destruct self as [? ? ? ? ? ? ? ? ? ? [[ | ] | ]]; reflexivity).
  assert (Hr1 : Reader.running self1 = false)
    by (unfold self1; destruct self as [? ? ? ? ? ? ? ? ? ? [[ | ] | ]]; reflexivity).
  destruct (stop_acquisition parse_data (Reader.device self1))
    as [[[[] | e] dv] | ] eqn:Es; try discriminate H.
  apply stop_acquisition_ok in Es. destruct Es as (Hs & Hp & Hf).
  destruct (close_dev_alive parse_data dv) as (dv' & Hc & Hs' & Hp' & _ & Hf').
  { unfold is_alive. rewrite Hp. reflexivity. }
  { rewrite Hs. discriminate. }
  rewrite Hc in H. inversion H; subst self'; clear H.
  destruct self1 as [d1 port f lc hc ws flt dq spp run th]. cbn in *. subst.
  repeat split; try assumption.
  - unfold is_alive. rewrite Hp'. reflexivity.
  - unfold Reader.start_reading. cbn.
    rewrite dead_controller_waits; [ reflexivity | assumption | assumption | congruence ].
Qed.

Lemma reader_cannot_be_restarted_witness :
  exists self',
    Reader.stop_reading hoarding_parser started_reader = Some (Ok tt, self') /\
    Reader.running self' = false /\
    raw (last_emg self') = [] /\
    Reader.filter self' = Reader.filter started_reader /\
    status (Reader.device self') = TERMINATE /\
    is_alive (Reader.device self') = false /\
    Reader.start_reading hoarding_parser self' = None.
Proof.
  eexists. split; [ vm_compute; reflexivity | ].
  apply (reader_cannot_be_restarted hoarding_parser started_reader).
  - reflexivity.
  - vm_compute. reflexivity.
Defined.

Lemma convolve_same_operands a v :
  match Np.convolve_same a v with
  | Ok _ => a <> [] /\ v <> []
  | Raise e => (a = [] \/ v = []) /\ exists msg, e = ValueError msg
  end.
Proof.
  unfold Np.convolve_same, Np.convolve_same_with.
  destruct a as [ | x a], v as [ | y v].
  - cbn. eauto.
  - cbn. eauto.
  - cbn. eauto.
  - destruct (Nat.ltb (List.length (x :: a)) (List.length (y :: v)));
      cbn; split; discriminate.
Qed.

(** X22: the envelope stage succeeds exactly when the window size is
    positive and the signal is not empty; otherwise it raises a
    [ValueError] (negative dimensions, or an empty operand of the
    convolution). *)
Theorem envelope_needs_samples_and_window self data :
  match compute_rms_envelope self data with
  | Ok env =>
      0 < window_size self /\ data <> [] /\
      List.length env = Nat.max (List.length data) (Z.to_nat (window_size self))
  | Raise e =>
      (window_size self <= 0 \/ data = []) /\ exists msg, e = ValueError msg
  end.
Proof.
  destruct (compute_rms_envelope self data) as [env | e] eqn:E.
  - pose proof (compute_rms_envelope_length _ _ _ E) as Hlen.
    unfold compute_rms_envelope, Np.ones_div in E.
    destruct (Z.ltb_spec (window_size self) 0); [ discriminate | ].
    cbn [bind] in E.
    pose proof (convolve_same_operands (Np.square (Np.abs data))
                  (repeat (PrimFloat.div PrimFloat.one (float_of_int (window_size self)))
                          (Z.to_nat (window_size self)))) as Hops.
    destruct (Np.convolve_same _ _); [ | discriminate ].
    destruct Hops as [Hdata Hker].
    repeat split; [ | | exact Hlen ].
    + destruct (Z.eq_dec (window_size self) 0) as [Hz | ]; [ | lia ].
      rewrite Hz in Hker. contradiction.
    + intros ->. apply Hdata. reflexivity.
  - split.
    + destruct (Z_le_gt_dec (window_size self) 0); [ auto | ].
      destruct data as [ | x data]; [ auto | ].
      destruct (compute_rms_envelope_ok self (x :: data)) as [env Henv];
        [ lia | discriminate | congruence ].
    + unfold compute_rms_envelope, Np.ones_div in E.
      destruct (window_size self <? 0); [ inversion E; eauto | ].
      cbn [bind] in E.
      pose proof (convolve_same_operands (Np.square (Np.abs data))
                    (repeat (PrimFloat.div PrimFloat.one (float_of_int (window_size self)))
                            (Z.to_nat (window_size self)))) as Hops.
      destruct (Np.convolve_same _ _); [ discriminate | ].
      inversion E; subst. apply Hops.
Qed.

(** X23: a recomputation that fails is not undone: the raw sequence is
    already the new window and the envelope is still the previous one, so
    after a failure the published sequences need not belong together. *)
Theorem failed_recomputation_is_partial butter iirnotch filtfilt self raw_window e self' :
  process_data butter iirnotch filtfilt self raw_window = (Raise e, self') ->
  raw_data self' = raw_window /\
  envelope_data self' = envelope_data self /\
  window_size self' = window_size self /\ fs self' = fs self.
Proof.
  unfold process_data.
  destruct (bandpass_filter _ _ _ _) as [bp | e1].
  - cbn [bandpassed_data set_bandpassed].
    destruct (notch_filter _ _ _ _) as [nt | e2].
    + cbn [notched_data set_notched].
      destruct (compute_rms_envelope _ _) as [env | e3]; [ discriminate | ].
      intros H. inversion H; subst. cbn. auto.
    + intros H. inversion H; subst. cbn. auto.
  - intros H. inversion H; subst. cbn. auto.
Qed.

(** A filter that holds an earlier envelope and whose notch frequency
    lies above the Nyquist frequency, on a full window of fifty samples:
    the bandpass stage goes through, the notch design raises, and the new
    raw and bandpassed sequences stand next to the old envelope. *)
Lemma failed_recomputation_is_partial_witness :
  let before := set_envelope [7%float] PipelineExamples.misnotched_filter in
  exists self',
    process_data unit_butter PipelineExamples.strict_iirnotch unit_filtfilt
      before PipelineExamples.whole_window
      = (Raise (ValueError "w0 should be such that 0 < w0 < 1"), self') /\
    (raw_data self' = PipelineExamples.whole_window /\
     envelope_data self' = envelope_data before /\
     window_size self' = window_size before /\ fs self' = fs before) /\
    raw_data before = [] /\
    envelope_data before = [7%float] /\
    List.length (raw_data self') = 50%nat /\
    bandpassed_data self' = PipelineExamples.whole_window /\
    notched_data self' = [].
Proof.
  eexists. split; [ vm_compute; reflexivity | ].
  split; [ | vm_compute; repeat split ].
  apply (failed_recomputation_is_partial unit_butter PipelineExamples.strict_iirnotch
           unit_filtfilt
           (set_envelope [7%float] PipelineExamples.misnotched_filter)
           PipelineExamples.whole_window
           (ValueError "w0 should be such that 0 < w0 < 1")).
  vm_compute. reflexivity.
Defined.

Lemma find_devs_none comports :
  filter usable comports = [] ->
  _find_devs comports = Raise (Exception "EMG device not found").
Proof.
  intros H. unfold _find_devs. rewrite probe_filter, H. reflexivity.
Qed.

(** X24: construction fails early and by name: with no usable FTDI port
    listed [EMGReader(...)] raises "EMG device not found"; and when the
    first usable port answers nothing to the 500 Hz command, any variant
    other than "low" raises the unsupported-firmware error before the
    connect handshake is tried. *)
Theorem construction_failures comports cls lc hc nt v :
  (filter usable comports = [] ->
   fst (Reader.init comports cls lc hc nt v) =
     Raise (Exception "EMG device not found")) /\
  (forall p rest d,
     _find_devs comports = Ok (p :: rest) ->
     open_port comports p = Ok d ->
     acknowledgment [x05] d = Ok [] ->
     v <> "low"%string ->
     fst (Reader.init comports cls lc hc nt v) = Raise UNSUPPORTED).
Proof.
  split.
  - intros Hnone. unfold Reader.init.
    destruct (select_rates v) as [eeg imu]. cbn [fst].
    unfold DataReader.init. rewrite (find_devs_none _ Hnone). reflexivity.
  - intros p rest d Hfind Hopen Hack Hv.
    assert (Hsel : select_rates v = (500, 100)).
    { unfold select_rates.
      destruct (String.eqb_spec v "low"); [ contradiction | reflexivity ]. }
    unfold Reader.init. rewrite Hsel. cbn [fst].
    unfold DataReader.init. rewrite Hfind. cbn [bind]. rewrite Hopen. cbn [bind].
    unfold DataReader.set_frequency. cbn.
    assert (Hraise : EmgSock.set_frequency 500 d = Raise UNSUPPORTED).
    { revert Hack.
      unfold EmgSock.set_frequency, acknowledgment, serial_flush, serial_write,
        serial_read_all.
      destruct (broken d || closed d) eqn:E; cbn; [ discriminate | ].
      rewrite E. cbn. rewrite E. cbn.
      destruct (in_buf d ++ reply d [x05]); [ reflexivity | discriminate ]. }
    rewrite Hraise. reflexivity.
Qed.

Lemma construction_failures_witness :
  fst (Reader.init foreign_comports dev_args DEFAULT_LOW_CUT DEFAULT_HIGH_CUT
         DEFAULT_NOTCH "high") = Raise (Exception "EMG device not found") /\
  fst (Reader.init old_comports dev_args DEFAULT_LOW_CUT DEFAULT_HIGH_CUT
         DEFAULT_NOTCH "high") = Raise UNSUPPORTED.
Proof.
  split.
  - apply (construction_failures foreign_comports). reflexivity.
  - destruct (construction_failures old_comports dev_args DEFAULT_LOW_CUT
                DEFAULT_HIGH_CUT DEFAULT_NOTCH "high") as [_ Hold].
    apply (Hold "/dev/ttyUSB0"%string [] usb_old); try reflexivity.
    discriminate.
Defined.

Lemma deque_append_full x d :
  List.length (items d) = maxlen d ->
  List.length (items (deque_append x d)) = maxlen d.
Proof.
  intros Hfull.
  change (deque_append x d) with (push_all [x] d).
  rewrite push_all_length by lia. cbn [List.length]. lia.
Qed.

Lemma process_sets_raw butter iirnotch filtfilt self self' :
  Reader.window_size self <= deque_len (Reader.recent_points self) ->
  Reader._process_emg_data butter iirnotch filtfilt self = (Ok tt, self') ->
  raw_data (Reader.filter self') = items (Reader.recent_points self') /\
  Reader.recent_points self' = Reader.recent_points self /\
  Reader.window_size self' = Reader.window_size self.
Proof.
  intros Hfull. unfold Reader._process_emg_data.
  destruct (Z.ltb_spec (deque_len (Reader.recent_points self))
                       (Reader.window_size self)); [ lia | ].
  destruct (process_data _ _ _ _ _) as [r f] eqn:E.
  intros Hret. inversion Hret; subst r self'; clear Hret.
  destruct self as [dv port f0 lc hc ws flt dq spp run th]. cbn in *.
  repeat split.
  unfold process_data in E.
  destruct (bandpass_filter _ _ _ _); [ | discriminate ].
  destruct (notch_filter _ _ _ _); [ | discriminate ].
  destruct (compute_rms_envelope _ _); [ | discriminate ].
  inversion E. reflexivity.
Qed.

Lemma append_values_full butter iirnotch filtfilt vals : forall self self',
  Z.of_nat (maxlen (Reader.recent_points self)) = Reader.window_size self ->
  List.length (items (Reader.recent_points self)) = maxlen (Reader.recent_points self) ->
  vals <> [] ->
  Reader.append_values butter iirnotch filtfilt vals self = (Ok tt, self') ->
  raw_data (Reader.filter self') = items (Reader.recent_points self').
Proof.
  induction vals as [ | x vals IH]; intros self self' Hcap Hfull Hne H;
    [ contradiction | ].
  cbn [Reader.append_values] in H.
  set (self1 := Reader.set_recent_points _ self) in H.
  assert (Hdq1 : Reader.recent_points self1 = deque_append x (Reader.recent_points self))
    by (unfold self1; destruct self; reflexivity).
  assert (Hws1 : Reader.window_size self1 = Reader.window_size self)
    by (unfold self1; destruct self; reflexivity).
  assert (Hfull1 : List.length (items (Reader.recent_points self1))
                   = maxlen (Reader.recent_points self))
    by (rewrite Hdq1; apply deque_append_full; exact Hfull).
  assert (Hge : Reader.window_size self1 <= deque_len (Reader.recent_points self1))
    by (unfold deque_len; rewrite Hfull1, Hws1; lia).
  destruct (Z.leb_spec (Reader.window_size self1)
                       (deque_len (Reader.recent_points self1))); [ | lia ].
  destruct (Reader._process_emg_data _ _ _ self1) as [r self2] eqn:E.
  destruct r as [[] | e]; [ | discriminate ].
  apply process_sets_raw in E; [ | exact Hge ].
  destruct E as (Hraw & Hdq2 & Hws2).
  destruct vals as [ | y vals].
  - inversion H; subst. exact Hraw.
  - apply IH in H; [ exact H | | | discriminate ].
    + rewrite Hdq2, Hdq1, Hws2, Hws1. cbn. exact Hcap.
    + rewrite Hdq2, Hfull1, Hdq1. reflexivity.
Qed.

Lemma append_values_is_refilter_each butter iirnotch filtfilt vals : forall self,
  Z.of_nat (maxlen (Reader.recent_points self)) = Reader.window_size self ->
  List.length (items (Reader.recent_points self)) = maxlen (Reader.recent_points self) ->
  Reader.append_values butter iirnotch filtfilt vals self =
  PerSample.refilter_each butter iirnotch filtfilt vals self.
Proof.
  induction vals as [ | x vals IH]; intros self Hcap Hfull; [ reflexivity | ].
  cbn [Reader.append_values PerSample.refilter_each].
  pose proof (deque_append_full x (Reader.recent_points self) Hfull) as Hfull1.
  destruct self as [dv port f0 lc hc ws flt dq spp run th].
  unfold Reader._process_emg_data, Reader.set_recent_points, Reader.set_filter,
    deque_len.
  cbn [Reader.recent_points Reader.window_size Reader.filter
       Reader.device Reader.device_port Reader.fs Reader.lowcut Reader.highcut
       Reader.samples_per_packet Reader.running Reader.read_thread] in *.
  rewrite Hfull1.
  destruct (Z.leb_spec ws (Z.of_nat (maxlen dq))); [ | lia ].
  destruct (Z.ltb_spec (Z.of_nat (maxlen dq)) ws); [ lia | ].
  destruct (process_data butter iirnotch filtfilt flt (items (deque_append x dq)))
    as [r f].
  destruct r as [u | e]; [ | reflexivity ].
  apply IH; cbn [Reader.recent_points Reader.window_size]; [ exact Hcap | exact Hfull1 ].
Qed.

(** X25: once the window is full, every admitted sample recomputes the
    filter over the whole window: the loop over the samples of a poll is,
    step for step, "append the sample, run the pipeline on the window as
    it then is, stop at the first error" ([PerSample.refilter_each]), so
    an error at one sample keeps the later ones out of the window; and
    after the samples have been appended without an error, the raw
    sequence the filter holds is exactly the current window. *)
Theorem full_window_is_always_refiltered butter iirnotch filtfilt vals self :
  Z.of_nat (maxlen (Reader.recent_points self)) = Reader.window_size self ->
  List.length (items (Reader.recent_points self)) = maxlen (Reader.recent_points self) ->
  Reader.append_values butter iirnotch filtfilt vals self =
    PerSample.refilter_each butter iirnotch filtfilt vals self /\
  (forall x rest,
     vals = x :: rest ->
     let window := items (deque_append x (Reader.recent_points self)) in
     let after_x :=
       Reader.set_filter
         (snd (process_data butter iirnotch filtfilt (Reader.filter self) window))
         (Reader.set_recent_points (deque_append x (Reader.recent_points self)) self) in
     Reader.append_values butter iirnotch filtfilt vals self =
       match fst (process_data butter iirnotch filtfilt (Reader.filter self) window) with
       | Ok _ => Reader.append_values butter iirnotch filtfilt rest after_x
       | Raise e => (Raise e, after_x)
       end /\
     Z.of_nat (maxlen (Reader.recent_points after_x)) = Reader.window_size after_x /\
     List.length (items (Reader.recent_points after_x)) =
       maxlen (Reader.recent_points after_x)) /\
  (forall self',
     vals <> [] ->
     Reader.append_values butter iirnotch filtfilt vals self = (Ok tt, self') ->
     raw_data (Reader.filter self') = raw (last_emg self') /\
     Reader.recent_points self' = push_all vals (Reader.recent_points self)).
Proof.
  intros Hcap Hfull. split; [ | split ].
  - apply append_values_is_refilter_each; assumption.
  - intros x rest ->. cbv zeta.
    rewrite (append_values_is_refilter_each butter iirnotch filtfilt (x :: rest) self
               Hcap Hfull).
    cbn [PerSample.refilter_each].
    pose proof (deque_append_full x (Reader.recent_points self) Hfull) as Hfull1.
    destruct (process_data butter iirnotch filtfilt (Reader.filter self)
                (items (deque_append x (Reader.recent_points self)))) as [r f].
    cbn [fst snd].
    assert (Hcap' : Z.of_nat (maxlen (Reader.recent_points
                      (Reader.set_filter f
                         (Reader.set_recent_points
                            (deque_append x (Reader.recent_points self)) self))))
                    = Reader.window_size
                        (Reader.set_filter f
                           (Reader.set_recent_points
                              (deque_append x (Reader.recent_points self)) self)))
      by (destruct self; exact Hcap).
    assert (Hfull' : List.length (items (Reader.recent_points
                       (Reader.set_filter f
                          (Reader.set_recent_points
                             (deque_append x (Reader.recent_points self)) self))))
                     = maxlen (Reader.recent_points
                         (Reader.set_filter f
                            (Reader.set_recent_points
                               (deque_append x (Reader.recent_points self)) self))))
      by (destruct self; exact Hfull1).
    split; [ | split; assumption ].
    destruct r as [u | e]; [ | reflexivity ].
    symmetry. apply append_values_is_refilter_each; assumption.
  - intros self' Hne H. split.
    + apply (append_values_full butter iirnotch filtfilt vals self self'); assumption.
    + eapply append_values_pushes. exact H.
Qed.

Lemma full_window_is_always_refiltered_witness :
  Reader.append_values unit_butter unit_iirnotch PerSample.choosy_filtfilt
    [4; 5; 6]%float tiny_full_reader =
    PerSample.refilter_each unit_butter unit_iirnotch PerSample.choosy_filtfilt
      [4; 5; 6]%float tiny_full_reader /\
  fst (Reader.append_values unit_butter unit_iirnotch PerSample.choosy_filtfilt
         [4; 5; 6]%float tiny_full_reader) = Raise (ValueError "window refused") /\
  items (Reader.recent_points
           (snd (Reader.append_values unit_butter unit_iirnotch PerSample.choosy_filtfilt
                   [4; 5; 6]%float tiny_full_reader))) = [3; 4; 5]%float /\
  raw_data (Reader.filter
              (snd (Reader.append_values unit_butter unit_iirnotch
                      PerSample.choosy_filtfilt [4; 5; 6]%float tiny_full_reader)))
    = [3; 4; 5]%float /\
  envelope_data (Reader.filter
                   (snd (Reader.append_values unit_butter unit_iirnotch
                           PerSample.choosy_filtfilt [4; 5; 6]%float tiny_full_reader)))
    = envelope_data
        (Reader.filter
           (snd (Reader.append_values unit_butter unit_iirnotch
                   PerSample.choosy_filtfilt [4]%float tiny_full_reader))) /\
  (let self' := snd (Reader.append_values unit_butter unit_iirnotch unit_filtfilt
                       [4; 5]%float tiny_full_reader) in
   raw_data (Reader.filter self') = raw (last_emg self') /\
   Reader.recent_points self' =
     push_all [4; 5]%float (Reader.recent_points tiny_full_reader)).
Proof.
  split; [ | split; [ | split; [ | split; [ | split ] ] ] ].
  - apply (full_window_is_always_refiltered unit_butter unit_iirnotch
             PerSample.choosy_filtfilt [4; 5; 6]%float tiny_full_reader);
      reflexivity.
  - vm_compute. reflexivity.
  - vm_compute. reflexivity.
  - vm_compute. reflexivity.
  - vm_compute. reflexivity.
  - destruct (full_window_is_always_refiltered unit_butter unit_iirnotch unit_filtfilt
                [4; 5]%float tiny_full_reader eq_refl eq_refl) as (_ & _ & Hlast).
    apply Hlast; [ discriminate | vm_compute; reflexivity ].
Defined.

(** X26: taking the first value of each sample fails exactly when one of
    the samples is empty, with an [IndexError]; otherwise it returns the
    head of every sample, in order, however many samples there are. *)
Theorem first_of_each_needs_nonempty_samples samples :
  match Reader.first_of_each samples with
  | Ok xs => xs = map (hd PrimFloat.zero) samples /\ ~ In [] samples
  | Raise e => e = IndexError "list index out of range" /\ In [] samples
  end.
Proof.
  induction samples as [ | smp samples IH]; cbn [Reader.first_of_each].
  - split; [ reflexivity | intros [] ].
  - destruct smp as [ | x smp].
    + split; [ reflexivity | left; reflexivity ].
    + destruct (Reader.first_of_each samples) as [xs | e]; cbn [bind].
      * destruct IH as [-> Hnot]. split; [ reflexivity | ].
        intros [Hhead | Htail]; [ discriminate | contradiction ].
      * destruct IH as [-> Hin]. split; [ reflexivity | right; exact Hin ].
Qed.

End SessionExtras.

(** ** core.py *)

Module CoreExtras.
Import Core.

(** X27: for [n_samples >= 1], [get_last_samples] returns the last
    [n_samples] elements, or the whole list when it is shorter; for
    [n_samples = 0] it returns the whole list, not an empty one, because
    [lst[-0:]] is [lst[0:]]. *)
Theorem get_last_samples_tail {A} (n_samples : Z) (lst : list A) :
  (1 <= n_samples ->
   get_last_samples n_samples lst =
     skipn (List.length lst - Z.to_nat n_samples) lst /\
   List.length (get_last_samples n_samples lst) =
     Nat.min (Z.to_nat n_samples) (List.length lst)) /\
  get_last_samples 0 lst = lst.
Proof.
  split.
  - intros Hn.
    assert (Heq : get_last_samples n_samples lst =
                  skipn (List.length lst - Z.to_nat n_samples) lst).
    { unfold get_last_samples, slice_from.
      destruct (Z.leb_spec n_samples (Z.of_nat (List.length lst))) as [Hle | Hgt].
      - destruct (Z.ltb_spec (- n_samples) 0); [ | lia ].
        f_equal. lia.
      - replace (List.length lst - Z.to_nat n_samples)%nat with 0%nat by lia.
        reflexivity. }
    split; [ exact Heq | ]. rewrite Heq, length_skipn. lia.
  - unfold get_last_samples, slice_from.
    destruct (Z.leb_spec 0 (Z.of_nat (List.length lst))); [ | reflexivity ].
    cbn. replace (Z.to_nat (Z.min 0 (Z.of_nat (List.length lst)))) with 0%nat by lia.
    reflexivity.
Qed.

Lemma get_last_samples_tail_witness :
  (get_last_samples 2 [10; 20; 30; 40; 50] = skipn (5 - 2) [10; 20; 30; 40; 50] /\
   List.length (get_last_samples 2 [10; 20; 30; 40; 50]) = Nat.min 2 5) /\
  get_last_samples 0 [10; 20; 30; 40; 50] = [10; 20; 30; 40; 50].
Proof.
  destruct (get_last_samples_tail 2 [10; 20; 30; 40; 50]) as [Hlast Hzero].
  split; [ apply Hlast; lia | ].
  apply (get_last_samples_tail 0 [10; 20; 30; 40; 50]).
Defined.

End CoreExtras.

(** ** Construction of the reader *)

Module ConstructionFacts.
Import EmgSock DataReader EmgReader Ports InitFacts Examples SockExtras.

(** On a working link the rate command goes through when it is the one
    for 250 Hz, or when something can be read after it. *)
Lemma sock_set_frequency_result rate d :
  broken d = false -> closed d = false ->
  rate = 250 \/ rate = 500 /\ (in_buf d <> [] \/ reply d [x05] <> []) ->
  EmgSock.set_frequency rate d =
    Ok {| port_name := port_name d; out_log := out_log d ++ rate_command rate;
          in_buf := []; reply := reply d; broken := false; closed := false |}.
Proof.
  intros Hb Hc Hr.
  unfold EmgSock.set_frequency, serial_flush, serial_write, serial_read_all.
  rewrite Hb, Hc. cbn [orb bind].
  destruct Hr as [-> | [-> Hack]]; cbn; rewrite Hb, Hc; cbn.
  - reflexivity.
  - destruct (in_buf d ++ reply d [x05]) as [ | b res] eqn:E; [ | reflexivity ].
    apply app_eq_nil in E. destruct E. destruct Hack; contradiction.
Qed.

(** [iFocus()] on a usable instrument: the first usable port is opened,
    the rate the class attribute names is selected, the handshake goes
    through and the controller is left idle. *)
Lemma controller_init_succeeds comports cls p rest d :
  _find_devs comports = Ok (p :: rest) ->
  open_port comports p = Ok d ->
  broken d = false -> closed d = false ->
  reply d [x01] <> [] ->
  fs_eeg cls = 250 \/ fs_eeg cls = 500 /\ (in_buf d <> [] \/ reply d [x05] <> []) ->
  exists dv,
    DataReader.init comports cls None = Ok dv /\
    args dv = set_name p (set_rates (fs_eeg cls) (fs_eeg cls / 5) cls) /\
    out_log (dev dv) = out_log d ++ rate_command (fs_eeg cls) ++ [x01; x02] /\
    status dv = IDLE /\ pc dv = IdleWait /\ socket_flag dv = None.
Proof.
  intros Hfind Hopen Hb Hc Hstart Hr.
  unfold DataReader.init. rewrite Hfind. cbn [bind]. rewrite Hopen. cbn [bind].
  unfold DataReader.set_frequency. cbn [status args dev Dev_eqb].
  change (Dev_eqb TERMINATE SIGNAL) with false. cbv iota.
  assert (Hnb : negb ((fs_eeg cls =? 250) || (fs_eeg cls =? 500)) = false).
  { destruct Hr as [-> | [-> _]]; reflexivity. }
  rewrite Hnb. cbn [dev set_args].
  rewrite (sock_set_frequency_result (fs_eeg cls) d Hb Hc Hr). cbn [bind].
  cbn [dev set_dev set_with_q set_socket_flag].
  rewrite connect_socket_result by reflexivity. cbn [reply].
  destruct (reply d [x01]) as [ | b l]; [ contradiction | ].
  eexists. split; [ reflexivity | ]. cbn.
  rewrite <- app_assoc. repeat split; reflexivity.
Qed.

(** [EMGReader(...)] on a usable instrument, at either pair of rates. *)
Lemma reader_init_succeeds comports cls lc hc nt v p rest d eeg imu ws :
  select_rates v = (eeg, imu) ->
  compute_window_size eeg = Ok ws -> 0 <= ws ->
  _find_devs comports = Ok (p :: rest) ->
  open_port comports p = Ok d ->
  broken d = false -> closed d = false ->
  reply d [x01] <> [] ->
  eeg = 250 \/ eeg = 500 /\ (in_buf d <> [] \/ reply d [x05] <> []) ->
  exists r,
    Reader.init comports cls lc hc nt v = (Ok r, set_rates eeg imu cls) /\
    Reader.fs r = eeg /\
    fs_eeg (args (Reader.device r)) = eeg /\
    fs_imu (args (Reader.device r)) = eeg / 5 /\
    Reader.window_size r = ws /\
    Reader.filter r = EMGFilter_init eeg ws lc hc nt /\
    Reader.recent_points r = {| items := []; maxlen := Z.to_nat ws |} /\
    Reader.device_port r = Some p /\
    out_log (dev (Reader.device r)) = out_log d ++ rate_command eeg ++ [x01; x02] /\
    status (Reader.device r) = IDLE /\
    Reader.running r = false.
Proof.
  intros Hsel Hws Hpos Hfind Hopen Hb Hc Hstart Hr.
  unfold Reader.init. rewrite Hsel.
  destruct (controller_init_succeeds comports (set_rates eeg imu cls) p rest d
              Hfind Hopen Hb Hc Hstart Hr)
    as (dv & Hinit & Hargs & Hlog & Hst & _).
  cbn [fs_eeg set_rates] in Hargs, Hlog.
  rewrite Hinit. cbn [bind]. rewrite Hargs. cbn [fs_eeg set_name set_rates].
  rewrite Hws. cbn [bind]. unfold deque_new.
  destruct (Z.ltb_spec ws 0); [ lia | ]. cbn [bind].
  eexists. split; [ reflexivity | ]. cbn.
  rewrite Hargs. cbn. auto 12.
Qed.

(** C10: every [sample_rate_variant] other than the exact string "low"
    is treated as "high": the choice of rates gives 500/100 Hz,
    construction behaves exactly as for "high", raising nothing on
    account of the argument, and on a usable instrument (a port that can
    be found and opened, a working link, an answer to the start command,
    and something to read after the 500 Hz command) it returns a reader
    at 500 Hz EEG, 100 Hz IMU with a window of 100 samples, the command
    0x05 written.  Only "low" gives 250/50 Hz: there construction
    returns a reader at 250 Hz EEG, 50 Hz IMU with a window of 50
    samples, the command 0x04 written. *)
Theorem variant_other_than_low_selects_high (v : string) :
  v <> "low"%string ->
  select_rates v = (500, 100) /\
  (forall comports cls lc hc nt,
     Reader.init comports cls lc hc nt v =
     Reader.init comports cls lc hc nt "high") /\
  (forall comports cls lc hc nt r cls',
     Reader.init comports cls lc hc nt v = (Ok r, cls') ->
     Reader.fs r = 500 /\
     fs_eeg (args (Reader.device r)) = 500 /\
     fs_imu (args (Reader.device r)) = 100) /\
  (forall w, select_rates w = (250, 50) <-> w = "low"%string) /\
  (forall comports cls lc hc nt p rest d,
     _find_devs comports = Ok (p :: rest) ->
     open_port comports p = Ok d ->
     broken d = false -> closed d = false ->
     reply d [x01] <> [] ->
     in_buf d <> [] \/ reply d [x05] <> [] ->
     exists r,
       Reader.init comports cls lc hc nt v = (Ok r, set_rates 500 100 cls) /\
       Reader.fs r = 500 /\
       fs_eeg (args (Reader.device r)) = 500 /\
       fs_imu (args (Reader.device r)) = 100 /\
       Reader.window_size r = 100 /\
       Reader.filter r = EMGFilter_init 500 100 lc hc nt /\
       Reader.recent_points r = {| items := []; maxlen := 100 |} /\
       Reader.device_port r = Some p /\
       out_log (dev (Reader.device r)) = out_log d ++ [x05; x01; x02] /\
       status (Reader.device r) = IDLE /\
       Reader.running r = false) /\
  (forall comports cls lc hc nt p rest d,
     _find_devs comports = Ok (p :: rest) ->
     open_port comports p = Ok d ->
     broken d = false -> closed d = false ->
     reply d [x01] <> [] ->
     exists r,
       Reader.init comports cls lc hc nt "low" = (Ok r, set_rates 250 50 cls) /\
       Reader.fs r = 250 /\
       fs_eeg (args (Reader.device r)) = 250 /\
       fs_imu (args (Reader.device r)) = 50 /\
       Reader.window_size r = 50 /\
       Reader.filter r = EMGFilter_init 250 50 lc hc nt /\
       Reader.recent_points r = {| items := []; maxlen := 50 |} /\
       Reader.device_port r = Some p /\
       out_log (dev (Reader.device r)) = out_log d ++ [x04; x01; x02] /\
       status (Reader.device r) = IDLE /\
       Reader.running r = false).
Proof.
  intros Hne.
  assert (Hsel : select_rates v = (500, 100)).
  { unfold select_rates.
    destruct (String.eqb_spec v "low"); [ contradiction | reflexivity ]. }
  split; [ exact Hsel | ]. split; [ | split; [ | split; [ | split ] ] ].
  - intros. unfold Reader.init. rewrite Hsel. reflexivity.
  - intros comports cls lc hc nt r cls' H.
    apply init_reader in H. rewrite Hsel in H. cbn [fst snd] in H.
    destruct H as (-> & Hdev & Hfs & _).
    apply init_controller in Hdev. cbn in Hdev.
    destruct Hdev as (_ & Heeg & Himu & _).
    rewrite Heeg, Himu. auto.
  - exact select_rates_low.
  - intros comports cls lc hc nt p rest d Hfind Hopen Hb Hc Hstart Hack.
    apply (reader_init_succeeds comports cls lc hc nt v p rest d 500 100 100
             Hsel compute_window_size_500); auto. lia.
  - intros comports cls lc hc nt p rest d Hfind Hopen Hb Hc Hstart.
    apply (reader_init_succeeds comports cls lc hc nt "low" p rest d 250 50 50
             eq_refl compute_window_size_250); auto. lia.
Qed.

Lemma variant_other_than_low_selects_high_witness :
  select_rates "hgih" = (500, 100) /\
  (Reader.init comports dev_args DEFAULT_LOW_CUT DEFAULT_HIGH_CUT DEFAULT_NOTCH "hgih" =
   Reader.init comports dev_args DEFAULT_LOW_CUT DEFAULT_HIGH_CUT DEFAULT_NOTCH "high") /\
  (exists r,
     Reader.init comports dev_args DEFAULT_LOW_CUT DEFAULT_HIGH_CUT DEFAULT_NOTCH "hgih"
       = (Ok r, set_rates 500 100 dev_args) /\
     Reader.fs r = 500 /\
     fs_eeg (args (Reader.device r)) = 500 /\
     fs_imu (args (Reader.device r)) = 100 /\
     Reader.window_size r = 100 /\
     Reader.filter r =
       EMGFilter_init 500 100 DEFAULT_LOW_CUT DEFAULT_HIGH_CUT DEFAULT_NOTCH /\
     Reader.recent_points r = {| items := []; maxlen := 100 |} /\
     Reader.device_port r = Some "/dev/ttyUSB0"%string /\
     out_log (dev (Reader.device r)) = out_log usb0 ++ [x05; x01; x02] /\
     status (Reader.device r) = IDLE /\
     Reader.running r = false) /\
  (exists r,
     Reader.init comports dev_args DEFAULT_LOW_CUT DEFAULT_HIGH_CUT DEFAULT_NOTCH "low"
       = (Ok r, set_rates 250 50 dev_args) /\
     Reader.fs r = 250 /\
     fs_eeg (args (Reader.device r)) = 250 /\
     fs_imu (args (Reader.device r)) = 50 /\
     Reader.window_size r = 50 /\
     Reader.filter r =
       EMGFilter_init 250 50 DEFAULT_LOW_CUT DEFAULT_HIGH_CUT DEFAULT_NOTCH /\
     Reader.recent_points r = {| items := []; maxlen := 50 |} /\
     Reader.device_port r = Some "/dev/ttyUSB0"%string /\
     out_log (dev (Reader.device r)) = out_log usb0 ++ [x04; x01; x02] /\
     status (Reader.device r) = IDLE /\
     Reader.running r = false).
Proof.
  destruct (variant_other_than_low_selects_high "hgih")
    as (Hsel & Hsame & _ & _ & Hhigh & Hlow); [ discriminate | ].
  split; [ exact Hsel | ]. split; [ apply Hsame | ]. split.
  - apply (Hhigh comports dev_args _ _ _ "/dev/ttyUSB0"%string [] usb0);
      try reflexivity; try discriminate.
    right. discriminate.
  - apply (Hlow comports dev_args _ _ _ "/dev/ttyUSB0"%string [] usb0);
      try reflexivity; discriminate.
Defined.

End ConstructionFacts.
